(** * BlueSerial: the serial protocol engine of BlueDisplay

    A shallow embedding of [arduino/libraries/BlueDisplay/BlueSerial.cpp]
    (the [USE_SIMPLE_SERIAL] build, without [DO_NOT_NEED_BASIC_TOUCH] and
    without [LOCAL_DISPLAY_EXISTS]):

    - the receive interrupt routine [ISR(USART_RX_vect)], one byte per call,
      as a function from the global receive variables and the received byte
      to the new globals;
    - the senders [sendUSARTArgs], [sendUSARTArgsAndByteBuffer] and
      [sendUSARTBufferNoSizeCheck], as functions to the list of bytes written
      to the USART data register [UDR0].

    The target is an 8 bit AVR: [int] and [int16_t] are 16 bit two's
    complement, [uint8_t] and [uint16_t] wrap around, words lie in memory
    low byte first. *)

From Stdlib Require Import ZArith List Bool Lia.
From stdpp Require Import base list.
Import ListNotations.
Local Open Scope Z_scope.

(** ** Machine integers *)

Definition uint8 (z : Z) : Z := z mod 256.
Definition uint16 (z : Z) : Z := z mod 65536.
(** [int] and [int16_t]: 16 bit, two's complement. *)
Definition int16 (z : Z) : Z := (z + 32768) mod 65536 - 32768.

(** ** Declarations of the headers *)

(** [struct BluetoothEvent] of EventHandler.h: the event type and the
    payload union, seen through its [EventData.ByteArray] member. *)
Record BluetoothEvent := {
  EventType : Z;
  ByteArray : list Z
}.

(** BlueSerial.h and EventHandler.h are not part of the sources at hand.
    The constants they define, and [handleEvent], which BlueSerial.cpp only
    calls, are parameters of the development.  [handleEvent] is handed a
    pointer to one event; it is modelled by what it does to that event. *)
Class Headers := {
  SYNC_TOKEN : Z;
  EVENT_TAG_NO_EVENT : Z;
  EVENT_TAG_FIRST_CALLBACK_ACTION_CODE : Z;
  EVENT_TAG_TOUCH_ACTION_DOWN : Z;
  TOUCH_CALLBACK_DATA_SIZE : Z;
  handleEvent : BluetoothEvent -> BluetoothEvent
}.

(** Constants of BlueSerial.cpp itself. *)
Definition DATAFIELD_TAG_BYTE : Z := 0x01.
Definition MAX_NUMBER_OF_ARGS : Z := 12.
Definition RECEIVE_TOUCH_OR_DISPLAY_DATA_SIZE : Z := 4.

(** ** The receiver *)

(** The globals the interrupt routine reads and writes. *)
Record State := {
  sReceiveBuffer : list Z;           (* uint8_t [RECEIVE_CALLBACK_DATA_SIZE] *)
  sReceiveBufferIndex : Z;           (* uint8_t *)
  sReceiveBufferOutOfSync : bool;
  sReceivedEventType : Z;            (* uint8_t *)
  allowTouchInterrupts : bool;
  remoteTouchEvent : BluetoothEvent;
  remoteTouchDownEvent : BluetoothEvent
}.

(** What [tRemoteTouchEventPtr] can point to. *)
Inductive EventPtr := PtrRemoteTouchEvent | PtrRemoteTouchDownEvent.

Definition deref (s : State) (p : EventPtr) : BluetoothEvent :=
  match p with
  | PtrRemoteTouchEvent => remoteTouchEvent s
  | PtrRemoteTouchDownEvent => remoteTouchDownEvent s
  end.

Definition assign (p : EventPtr) (e : BluetoothEvent) (s : State) : State :=
  match p with
  | PtrRemoteTouchEvent =>
      {| sReceiveBuffer := sReceiveBuffer s;
         sReceiveBufferIndex := sReceiveBufferIndex s;
         sReceiveBufferOutOfSync := sReceiveBufferOutOfSync s;
         sReceivedEventType := sReceivedEventType s;
         allowTouchInterrupts := allowTouchInterrupts s;
         remoteTouchEvent := e;
         remoteTouchDownEvent := remoteTouchDownEvent s |}
  | PtrRemoteTouchDownEvent =>
      {| sReceiveBuffer := sReceiveBuffer s;
         sReceiveBufferIndex := sReceiveBufferIndex s;
         sReceiveBufferOutOfSync := sReceiveBufferOutOfSync s;
         sReceivedEventType := sReceivedEventType s;
         allowTouchInterrupts := allowTouchInterrupts s;
         remoteTouchEvent := remoteTouchEvent s;
         remoteTouchDownEvent := e |}
  end.

(** The four variables private to the receiver, assigned together. *)
Definition set_receiver (buf : list Z) (idx : Z) (oos : bool) (ty : Z) (s : State) : State :=
  {| sReceiveBuffer := buf;
     sReceiveBufferIndex := idx;
     sReceiveBufferOutOfSync := oos;
     sReceivedEventType := ty;
     allowTouchInterrupts := allowTouchInterrupts s;
     remoteTouchEvent := remoteTouchEvent s;
     remoteTouchDownEvent := remoteTouchDownEvent s |}.

(** [memcpy (dst, src, n)]: the first [n] bytes of [dst] become those of [src]. *)
Definition memcpy (dst src : list Z) (n : Z) : list Z :=
  take (Z.to_nat n) src ++ drop (Z.to_nat n) dst.

Section Receiver.
Context {hdr : Headers}.

Definition RECEIVE_CALLBACK_DATA_SIZE : Z := TOUCH_CALLBACK_DATA_SIZE.

(** [sReceiveBuffer[sReceiveBufferIndex++] = tByte].  The array has
    [RECEIVE_CALLBACK_DATA_SIZE] elements; a store outside of it is an error
    ([None]). *)
Definition store_byte (tByte : Z) (s : State) : option State :=
  let i := sReceiveBufferIndex s in
  if (0 <=? i) && (i <? RECEIVE_CALLBACK_DATA_SIZE) then
    Some (set_receiver (<[Z.to_nat i := tByte]> (sReceiveBuffer s)) (uint8 (i + 1))
            (sReceiveBufferOutOfSync s) (sReceivedEventType s) s)
  else None.

(** The local [tDataSize] of the interrupt routine, for a received event type. *)
Definition tDataSize (ty : Z) : Z :=
  if ty <? EVENT_TAG_FIRST_CALLBACK_ACTION_CODE
  then RECEIVE_TOUCH_OR_DISPLAY_DATA_SIZE
  else RECEIVE_CALLBACK_DATA_SIZE.

(** [ISR(USART_RX_vect)], for the byte [tByte] read from [UDR0]. *)
Definition ISR (s : State) (tByte : Z) : option State :=
  if sReceiveBufferOutOfSync s then
    (* just wait for next sync token and reset buffer *)
    if tByte =? SYNC_TOKEN then
      Some (set_receiver (sReceiveBuffer s) 0 false EVENT_TAG_NO_EVENT s)
    else Some s
  else if sReceivedEventType s =? EVENT_TAG_NO_EVENT then
    if sReceiveBufferIndex s =? 1 then
      (* skip length and eventType *)
      Some (set_receiver (sReceiveBuffer s) 0 (sReceiveBufferOutOfSync s) tByte s)
    else
      (* length not used *)
      store_byte tByte s
  else
    if sReceiveBufferIndex s =? tDataSize (sReceivedEventType s) then
      (* now we expect a sync token *)
      if tByte =? SYNC_TOKEN then
        (* event complete received *)
        let tRemoteTouchEventPtr :=
          if sReceivedEventType s =? EVENT_TAG_TOUCH_ACTION_DOWN
          then PtrRemoteTouchDownEvent else PtrRemoteTouchEvent in
        let ev := {| EventType := sReceivedEventType s;
                     ByteArray := memcpy (ByteArray (deref s tRemoteTouchEventPtr))
                                    (sReceiveBuffer s) (tDataSize (sReceivedEventType s)) |} in
        let s1 := assign tRemoteTouchEventPtr ev s in
        let s2 := set_receiver (sReceiveBuffer s1) 0 (sReceiveBufferOutOfSync s1)
                    EVENT_TAG_NO_EVENT s1 in
        if allowTouchInterrupts s2 then
          Some (assign tRemoteTouchEventPtr (handleEvent (deref s2 tRemoteTouchEventPtr)) s2)
        else Some s2
      else
        (* reset buffer since we had an overflow or glitch *)
        Some (set_receiver (sReceiveBuffer s) 0 true (sReceivedEventType s) s)
    else
      (* plain message byte *)
      store_byte tByte s.

(** The interrupt routine run on the bytes of a stream, one call per byte. *)
Fixpoint receive (s : State) (bytes : list Z) : option State :=
  match bytes with
  | [] => Some s
  | b :: rest =>
      match ISR s b with
      | Some s' => receive s' rest
      | None => None
      end
  end.

End Receiver.

(** ** The sender *)

(** Memory behind a byte pointer: the byte at each address. *)
Definition Mem := Z -> Z.

(** [*p = w] through a [uint16_t *]: two bytes, the low one first. *)
Definition store16 (m : Mem) (p w : Z) : Mem :=
  fun a => if a =? p then w mod 256
           else if a =? p + 1 then (w / 256) mod 256
           else m a.

(** [va_arg (argp, int)]: the next variadic argument, read as an [int].
    Reading past the arguments that were passed is undefined in C; the model
    reads 0 there, and no theorem below reads that far. *)
Definition va_arg (argp : list Z) : Z * list Z :=
  match argp with
  | [] => (0, [])
  | a :: rest => (int16 a, rest)
  end.

(** One loop [while (length > 0) { UDR0 = *pointer; pointer++; length--; }]
    with [n] passes left; the result lists the bytes written to [UDR0].
    (The inner loop that polls [UDRE0] waits for the hardware and writes
    nothing.) *)
Fixpoint usart_write (m : Mem) (pointer : Z) (n : nat) : list Z :=
  match n with
  | O => []
  | S k => m pointer :: usart_write m (pointer + 1) k
  end.

(** [sendUSARTBufferNoSizeCheck].  The parameter buffer lies in [pmem], the
    data buffer in [dmem]; both lengths are signed 16 bit values, and a loop
    over a length that is not positive is not entered. *)
Definition sendUSARTBufferNoSizeCheck (pmem : Mem) (aParameterBufferPointer : Z)
    (aParameterBufferLength : Z) (dmem : Mem) (aDataBufferPointer : Z)
    (aDataBufferLength : Z) : list Z :=
  usart_write pmem aParameterBufferPointer (Z.to_nat aParameterBufferLength)
  ++ usart_write dmem aDataBufferPointer (Z.to_nat aDataBufferLength).

(** [for (uint8_t i = 0; i < aNumberOfArgs; ++i) *tBufferPointer++ = va_arg (argp, int);]
    with [n] passes left.  The loop is entered only with
    [aNumberOfArgs <= MAX_NUMBER_OF_ARGS], so [i] does not wrap and the number
    of passes is [aNumberOfArgs], or none if that is negative. *)
Fixpoint copy_args (n : nat) (argp : list Z) (m : Mem) (tBufferPointer : Z)
  : Mem * Z * list Z :=
  match n with
  | O => (m, tBufferPointer, argp)
  | S k =>
      let (v, argp') := va_arg argp in
      copy_args k argp' (store16 m tBufferPointer (uint16 v)) (tBufferPointer + 2)
  end.

Section Sender.
Context {hdr : Headers}.

(** [sendUSARTArgs (aFunctionTag, aNumberOfArgs, ...)].  [stack] is the memory
    at and behind the local array [tParamBuffer], as the call finds it;
    addresses in it count from [&tParamBuffer[0]]. *)
Definition sendUSARTArgs (stack : Mem) (aFunctionTag aNumberOfArgs : Z)
    (argp : list Z) : list Z :=
  if aNumberOfArgs >? MAX_NUMBER_OF_ARGS then []
  else
    let m := store16 stack 0 (uint16 (Z.lor (Z.shiftl aFunctionTag 8) SYNC_TOKEN)) in
    let m := store16 m 2 (uint16 (int16 (aNumberOfArgs * 2))) in
    let '(m, _, _) := copy_args (Z.to_nat aNumberOfArgs) argp m 4 in
    sendUSARTBufferNoSizeCheck m 0 (int16 (int16 (aNumberOfArgs * 2) + 4)) m 0 0.

(** [sendUSARTArgsAndByteBuffer (aFunctionTag, aNumberOfArgs, ..., length, buffer)].
    [ram] is the memory the buffer address points into. *)
Definition sendUSARTArgsAndByteBuffer (stack ram : Mem) (aFunctionTag aNumberOfArgs : Z)
    (argp : list Z) : list Z :=
  if aNumberOfArgs >? MAX_NUMBER_OF_ARGS then []
  else
    let m := store16 stack 0 (uint16 (Z.lor (Z.shiftl aFunctionTag 8) SYNC_TOKEN)) in
    let m := store16 m 2 (uint16 (int16 (aNumberOfArgs * 2))) in
    let '(m, tBufferPointer, argp) := copy_args (Z.to_nat aNumberOfArgs) argp m 4 in
    (* add data field header *)
    let m := store16 m tBufferPointer
               (uint16 (Z.lor (Z.shiftl DATAFIELD_TAG_BYTE 8) SYNC_TOKEN)) in
    let (v, argp) := va_arg argp in
    let tLength := uint16 v in
    let m := store16 m (tBufferPointer + 2) tLength in
    let (a, _) := va_arg argp in
    let aBufferPtr := uint16 a in
    sendUSARTBufferNoSizeCheck m 0 (int16 (int16 (aNumberOfArgs * 2) + 8))
      ram aBufferPtr (int16 tLength).

End Sender.

(** Modelled from the spec: [handleEvent] of EventHandler.cpp, which is not
    among the sources at hand.  Of the dispatcher the spec says "After
    dispatch, clear the slot (EventType = NO_EVENT)"; the handlers it calls
    are application code and are left out. *)
Definition handleEvent_clearing (no_event : Z) (e : BluetoothEvent) : BluetoothEvent :=
  {| EventType := no_event; ByteArray := ByteArray e |}.

(** Sample values for the parameters, to run the model on: the sync byte A5
    and the 12 byte buffer are those of the comments in BlueSerial.cpp, the
    event tags are picked.  The theorems hold for all values. *)
Definition sample_headers : Headers :=
  {| SYNC_TOKEN := 0xA5;
     EVENT_TAG_NO_EVENT := 0xFF;
     EVENT_TAG_FIRST_CALLBACK_ACTION_CODE := 0x20;
     EVENT_TAG_TOUCH_ACTION_DOWN := 0x00;
     TOUCH_CALLBACK_DATA_SIZE := 12;
     handleEvent := handleEvent_clearing 0xFF |}.

Definition empty_event : BluetoothEvent :=
  {| EventType := 0xFF; ByteArray := repeat 0 12 |}.

(** The globals after start-up, with [allowTouchInterrupts] as given. *)
Definition sample_state (allow : bool) : State :=
  {| sReceiveBuffer := repeat 0 12;
     sReceiveBufferIndex := 0;
     sReceiveBufferOutOfSync := false;
     sReceivedEventType := 0xFF;
     allowTouchInterrupts := allow;
     remoteTouchEvent := empty_event;
     remoteTouchDownEvent := empty_event |}.

(** ** Vocabulary of the statements *)

Section Vocabulary.
Context {hdr : Headers}.

(** The receiver as start-up and every completed frame leave it: in sync, no
    event type received, index 0. *)
Definition receiver_reset (s : State) : Prop :=
  sReceiveBufferOutOfSync s = false
  /\ sReceivedEventType s = EVENT_TAG_NO_EVENT
  /\ sReceiveBufferIndex s = 0.

(** The list that stands for the array has the declared number of elements. *)
Definition buffer_ok (s : State) : Prop :=
  Z.of_nat (length (sReceiveBuffer s)) = RECEIVE_CALLBACK_DATA_SIZE.

(** An event frame as the host sends it. *)
Record EventFrame := {
  frame_length : Z;
  frame_tag : Z;
  frame_payload : list Z
}.

Definition wire (f : EventFrame) : list Z :=
  frame_length f :: frame_tag f :: frame_payload f ++ [SYNC_TOKEN].

Definition well_formed (f : EventFrame) : Prop :=
  frame_tag f <> EVENT_TAG_NO_EVENT
  /\ Z.of_nat (length (frame_payload f)) = tDataSize (frame_tag f).

(** The slot an event of type [tag] goes to. *)
Definition destination (tag : Z) : EventPtr :=
  if tag =? EVENT_TAG_TOUCH_ACTION_DOWN then PtrRemoteTouchDownEvent
  else PtrRemoteTouchEvent.

(** The event a frame stands for, written over the slot content [old]. *)
Definition event_of (f : EventFrame) (old : BluetoothEvent) : BluetoothEvent :=
  {| EventType := frame_tag f;
     ByteArray := frame_payload f ++ drop (length (frame_payload f)) (ByteArray old) |}.

(** A frame taken in: its payload lies in the receive buffer, the receiver is
    reset, the event is in its slot, and the slot has gone through
    [handleEvent] if [allowTouchInterrupts] is set. *)
Definition deliver (s : State) (f : EventFrame) : State :=
  let p := destination (frame_tag f) in
  let s1 := assign p (event_of f (deref s p)) s in
  let s2 := set_receiver
              (frame_payload f ++ drop (length (frame_payload f)) (sReceiveBuffer s))
              0 false EVENT_TAG_NO_EVENT s1 in
  if allowTouchInterrupts s then assign p (handleEvent (deref s2 p)) s2 else s2.

(** The main program between two interrupts: it may consume events and set
    [allowTouchInterrupts], and leaves the receiver's own variables alone. *)
Definition same_receiver (s s' : State) : Prop :=
  sReceiveBuffer s' = sReceiveBuffer s
  /\ sReceiveBufferIndex s' = sReceiveBufferIndex s
  /\ sReceiveBufferOutOfSync s' = sReceiveBufferOutOfSync s
  /\ sReceivedEventType s' = sReceivedEventType s.

(** The states the program gets into from start-up. *)
Inductive reachable : State -> Prop :=
  | reach_start s : receiver_reset s -> buffer_ok s -> reachable s
  | reach_isr s tByte s' : reachable s -> ISR s tByte = Some s' -> reachable s'
  | reach_main s s' : reachable s -> same_receiver s s' -> reachable s'.

(** Whether the interrupt routine, entered in [s], gets to one of its two
    stores into the receive buffer. *)
Definition ISR_stores (s : State) : bool :=
  negb (sReceiveBufferOutOfSync s)
  && (if sReceivedEventType s =? EVENT_TAG_NO_EVENT
      then negb (sReceiveBufferIndex s =? 1)
      else negb (sReceiveBufferIndex s =? tDataSize (sReceivedEventType s))).

(** What holds of the receiver's variables in every reachable state. *)
Definition index_in_bounds (s : State) : Prop :=
  buffer_ok s
  /\ 0 <= sReceiveBufferIndex s <= tDataSize (sReceivedEventType s)
  /\ (sReceivedEventType s = EVENT_TAG_NO_EVENT -> sReceiveBufferIndex s <= 1).

End Vocabulary.

(** The bytes of 16 bit words in memory order. *)
Definition le16 (w : Z) : list Z := [w mod 256; (w / 256) mod 256].

Definition words_le (ws : list Z) : list Z := concat (map le16 ws).

Definition is_uint8 (z : Z) : Prop := 0 <= z < 256.
Definition is_uint16 (z : Z) : Prop := 0 <= z < 65536.

(** The bytes of [ram] from [p] on. *)
Definition bytes_at (ram : Mem) (p : Z) (n : Z) : list Z :=
  map (fun i => ram (p + Z.of_nat i)) (seq 0 (Z.to_nat n)).

(** Words stored one behind the other from [p] on. *)
Fixpoint write_words (m : Mem) (p : Z) (ws : list Z) : Mem :=
  match ws with
  | [] => m
  | w :: ws' => write_words (store16 m p w) (p + 2) ws'
  end.

(** ** The other functions of BlueSerial.cpp *)

(** The USART registers [initSimpleSerial] writes, 8 bit each. *)
Record Usart := {
  UCSR0A : Z;
  UCSR0B : Z;
  UBRR0H : Z;
  UBRR0L : Z
}.

(** What the build environment of the AVR provides: the clock frequency
    [F_CPU] of the compiler command line and the bit numbers of <avr/io.h>. *)
Class AvrIo := {
  F_CPU : Z;
  U2X0 : Z;
  RXEN0 : Z;
  TXEN0 : Z;
  RXCIE0 : Z
}.

Definition uint32 (z : Z) : Z := z mod 4294967296.

Section Siblings.
Context {hdr : Headers} {io : AvrIo}.

(** The local [baud_setting] of [initSimpleSerial]: [aBaudRate] is a
    [uint32_t], so the arithmetic is unsigned 32 bit, and the result is cut
    to the [uint16_t] variable. *)
Definition baud_setting (aBaudRate : Z) : Z :=
  uint16 (uint32 (uint32 ((F_CPU / 4) / aBaudRate) - 1) / 2).

(** [initSimpleSerial (aBaudRate, aUsePairedPin)], without
    [LOCAL_DISPLAY_EXISTS]: the registers it sets and the globals it leaves. *)
Definition initSimpleSerial (aBaudRate : Z) (aUsePairedPin : bool) (s : State)
  : Usart * State :=
  let usart :=
    {| UCSR0A := uint8 (Z.shiftl 1 U2X0);
       UBRR0H := uint8 (Z.shiftr (baud_setting aBaudRate) 8);
       UBRR0L := uint8 (baud_setting aBaudRate);
       UCSR0B := uint8 (Z.lor (Z.lor (Z.shiftl 1 RXEN0) (Z.shiftl 1 TXEN0))
                          (Z.shiftl 1 RXCIE0)) |} in
  let s := assign PtrRemoteTouchEvent
             {| EventType := EVENT_TAG_NO_EVENT;
                ByteArray := ByteArray (remoteTouchEvent s) |} s in
  let s := assign PtrRemoteTouchDownEvent
             {| EventType := EVENT_TAG_NO_EVENT;
                ByteArray := ByteArray (remoteTouchDownEvent s) |} s in
  (usart, s).

(** [USART3_send (aChar)]: the byte written to [UDR0]. *)
Definition USART3_send (aChar : Z) : list Z := [uint8 aChar].

(** [sendUSART5Args].  [stack] is the memory at and behind [tParamBuffer]. *)
Definition sendUSART5Args (stack : Mem) (aFunctionTag aXStart aYStart aXEnd aYEnd aColor : Z)
  : list Z :=
  let m := store16 stack 0 (uint16 (Z.lor (Z.shiftl aFunctionTag 8) SYNC_TOKEN)) in
  let m := store16 m 2 10 in
  let m := store16 m 4 aXStart in
  let m := store16 m 6 aYStart in
  let m := store16 m 8 aXEnd in
  let m := store16 m 10 aYEnd in
  let m := store16 m 12 aColor in
  sendUSARTBufferNoSizeCheck m 0 14 m 0 0.

(** [sendUSART5ArgsAndByteBuffer].  [aBufferLength] is a [uint16_t] and is
    handed on as the [int16_t] length of the data. *)
Definition sendUSART5ArgsAndByteBuffer (stack ram : Mem)
    (aFunctionTag aXStart aYStart aXEnd aYEnd aColor aBuffer aBufferLength : Z) : list Z :=
  let m := store16 stack 0 (uint16 (Z.lor (Z.shiftl aFunctionTag 8) SYNC_TOKEN)) in
  let m := store16 m 2 10 in
  let m := store16 m 4 aXStart in
  let m := store16 m 6 aYStart in
  let m := store16 m 8 aXEnd in
  let m := store16 m 10 aYEnd in
  let m := store16 m 12 aColor in
  (* add data field header *)
  let m := store16 m 14 (uint16 (Z.lor (Z.shiftl DATAFIELD_TAG_BYTE 8) SYNC_TOKEN)) in
  let m := store16 m 16 aBufferLength in
  sendUSARTBufferNoSizeCheck m 0 18 ram aBuffer (int16 aBufferLength).

(** *** [serialEvent], the receiver of the build without [USE_SIMPLE_SERIAL]

    [Serial] is the receive queue of the Arduino core: the bytes received and
    not yet read, oldest first.  [available] is its length, [read] takes the
    first byte, or yields -1 on the empty queue, [readBytes] takes as many as
    asked for; [serialEvent] asks for no more than [available] has shown.
    The model is one call on the queue as the call finds it. *)

Definition Serial_read (serial : list Z) : Z * list Z :=
  match serial with
  | [] => (-1, [])
  | b :: rest => (b, rest)
  end.

(** [Serial.readBytes] of [n] bytes into [sReceiveBuffer]; more than the
    buffer holds is an error. *)
Definition Serial_readBytes (n : Z) (s : State) (serial : list Z)
  : option (State * list Z) :=
  if n <=? RECEIVE_CALLBACK_DATA_SIZE then
    Some (set_receiver (memcpy (sReceiveBuffer s) serial n) (sReceiveBufferIndex s)
            (sReceiveBufferOutOfSync s) (sReceivedEventType s) s,
          drop (Z.to_nat n) serial)
  else None.

(** The loop [while (Serial.available () > 0)] of the out-of-sync branch. *)
Fixpoint serialEvent_resync (s : State) (serial : list Z) : State * list Z :=
  match serial with
  | [] => (s, [])
  | b :: rest =>
      if b =? SYNC_TOKEN then
        (set_receiver (sReceiveBuffer s) (sReceiveBufferIndex s) false EVENT_TAG_NO_EVENT s,
         rest)
      else serialEvent_resync s rest
  end.

(** [serialEvent ()]: the globals and the queue after the call. *)
Definition serialEvent (s : State) (serial : list Z) : option (State * list Z) :=
  let (s, serial) :=
    if sReceiveBufferOutOfSync s then serialEvent_resync s serial else (s, serial) in
  if sReceiveBufferOutOfSync s then Some (s, serial)
  else
    (* regular operation here *)
    let tBytesAvailable := uint8 (Z.of_nat (length serial)) in
    let header :=
      if sReceivedEventType s =? EVENT_TAG_NO_EVENT then
        if 2 <=? tBytesAvailable then
          (* read message length and event tag first *)
          match Serial_readBytes 2 s serial with
          | Some (s', serial') =>
              Some (set_receiver (sReceiveBuffer s') (sReceiveBufferIndex s')
                      (sReceiveBufferOutOfSync s') (nth 1 (sReceiveBuffer s') 0) s',
                    serial', uint8 (tBytesAvailable - 2))
          | None => None
          end
        else Some (s, serial, tBytesAvailable)
      else Some (s, serial, tBytesAvailable) in
    match header with
    | None => None
    | Some (s, serial, tBytesAvailable) =>
        if sReceivedEventType s =? EVENT_TAG_NO_EVENT then Some (s, serial)
        else if tDataSize (sReceivedEventType s) <? tBytesAvailable then
          (* touch or size event complete received, now read data and sync token *)
          match Serial_readBytes (tDataSize (sReceivedEventType s)) s serial with
          | None => None
          | Some (s, serial) =>
              let (c, serial) := Serial_read serial in
              if c =? SYNC_TOKEN then
                let ev := {| EventType := sReceivedEventType s;
                             ByteArray := memcpy (ByteArray (remoteTouchEvent s))
                                            (sReceiveBuffer s)
                                            (tDataSize (sReceivedEventType s)) |} in
                let s := assign PtrRemoteTouchEvent ev s in
                let s := set_receiver (sReceiveBuffer s) (sReceiveBufferIndex s)
                           (sReceiveBufferOutOfSync s) EVENT_TAG_NO_EVENT s in
                Some (assign PtrRemoteTouchEvent (handleEvent (remoteTouchEvent s)) s, serial)
              else
                Some (set_receiver (sReceiveBuffer s) (sReceiveBufferIndex s) true
                        (sReceivedEventType s) s, serial)
          end
        else Some (s, serial)
    end.

(** The receiver after [serialEvent] has read the two header bytes. *)
Definition header_read (s : State) (len tag : Z) : State :=
  set_receiver (len :: tag :: drop 2 (sReceiveBuffer s)) (sReceiveBufferIndex s) false tag s.

End Siblings.

(** ** Chart.cpp: scaling of label values *)

(** [int] of the STM32: 32 bit, two's complement. *)
Definition int32 (z : Z) : Z := (z + 2147483648) mod 4294967296 - 2147483648.

(** [adjustIntWithScaleFactor (aValue, aScaleFactor)]; [/] on [int] rounds
    towards zero. *)
Definition adjustIntWithScaleFactor (aValue aScaleFactor : Z) : Z :=
  if aScaleFactor =? 0 then aValue
  else if aScaleFactor >? 1 then Z.quot aValue aScaleFactor
  else if aScaleFactor =? 1 then Z.quot (int32 (aValue * 2)) 3
  else if aScaleFactor =? -1 then Z.quot (int32 (aValue * 3)) 2
  else if aScaleFactor <? -1 then int32 (aValue * int32 (- aScaleFactor))
  else aValue.

(** Sample frames and states. *)
Definition sample_touch_frame : EventFrame :=
  {| frame_length := 6; frame_tag := 0x01; frame_payload := [10; 20; 30; 40] |}.

Definition sample_callback_frame : EventFrame :=
  {| frame_length := 14; frame_tag := 0x20;
     frame_payload := [3; 0; 7; 0; 0; 0; 0; 0; 0; 0; 0; 0] |}.

(** The start-up state with an unconsumed touch down event in its slot. *)
Definition sample_state_down : State :=
  {| sReceiveBuffer := repeat 0 12;
     sReceiveBufferIndex := 0;
     sReceiveBufferOutOfSync := false;
     sReceivedEventType := 0xFF;
     allowTouchInterrupts := false;
     remoteTouchEvent := empty_event;
     remoteTouchDownEvent :=
       {| EventType := 0x00; ByteArray := [5; 0; 9; 0; 0; 0; 0; 0; 0; 0; 0; 0] |} |}.

(** A touch event collected in full, the sync token due. *)
Definition sample_state_full : State :=
  {| sReceiveBuffer := [10; 20; 30; 40; 0; 0; 0; 0; 0; 0; 0; 0];
     sReceiveBufferIndex := 4;
     sReceiveBufferOutOfSync := false;
     sReceivedEventType := 0x01;
     allowTouchInterrupts := false;
     remoteTouchEvent := empty_event;
     remoteTouchDownEvent := empty_event |}.

(** Out of sync after a glitch. *)
Definition sample_state_out_of_sync : State :=
  {| sReceiveBuffer := [10; 20; 30; 40; 0; 0; 0; 0; 0; 0; 0; 0];
     sReceiveBufferIndex := 0;
     sReceiveBufferOutOfSync := true;
     sReceivedEventType := 0x01;
     allowTouchInterrupts := false;
     remoteTouchEvent := empty_event;
     remoteTouchDownEvent := empty_event |}.

Definition sample_stack : Mem := fun _ => 0.
Definition sample_ram : Mem := fun a => a mod 256.

(** Sample values of the build environment: an ATmega328P at 16 MHz. *)
Definition sample_avr : AvrIo :=
  {| F_CPU := 16000000; U2X0 := 1; RXEN0 := 4; TXEN0 := 3; RXCIE0 := 7 |}.

(** * Properties *)

(** ** Lists and machine integers *)

Lemma uint8_small z : 0 <= z < 256 -> uint8 z = z.
Proof. intros Hz. unfold uint8. apply Z.mod_small. exact Hz. Qed.

Lemma uint16_small z : 0 <= z < 65536 -> uint16 z = z.
Proof. intros Hz. unfold uint16. apply Z.mod_small. exact Hz. Qed.

Lemma int16_small z : -32768 <= z < 32768 -> int16 z = z.
Proof. intros Hz. unfold int16. rewrite Z.mod_small; lia. Qed.

Lemma uint16_int16 z : uint16 (int16 z) = uint16 z.
Proof.
  unfold uint16, int16.
  rewrite (Z.mod_eq (z + 32768) 65536) by lia.
  replace (z + 32768 - 65536 * ((z + 32768) / 65536) - 32768)
    with (z + (- ((z + 32768) / 65536)) * 65536) by lia.
  apply Z.mod_add. lia.
Qed.

(** Storing at [i] and then reading a window that starts behind [i]. *)
Lemma splice_insert (l : list Z) (i : nat) (b : Z) (P : list Z) :
  (i < length l)%nat ->
  take (S i) (<[i := b]> l) ++ P ++ drop (S i + length P) (<[i := b]> l)
  = take i l ++ (b :: P) ++ drop (i + length (b :: P)) l.
Proof.
  intros Hi.
  rewrite (take_S_r _ i b) by (apply list_lookup_insert_eq; exact Hi).
  rewrite take_insert_ge by lia.
  rewrite drop_insert_lt by lia.
  rewrite <- app_assoc. simpl.
  replace (i + S (length P))%nat with (S (i + length P)) by lia.
  reflexivity.
Qed.

Lemma state_eta (s : State) :
  set_receiver (sReceiveBuffer s) (sReceiveBufferIndex s)
    (sReceiveBufferOutOfSync s) (sReceivedEventType s) s = s.
Proof. destruct s; reflexivity. Qed.

(** ** The receiver *)

Section ReceiverTheory.
Context {hdr : Headers}.
(** The receive buffer holds a touch event, and its size fits the [uint8_t]
    index. *)
Hypothesis callback_size : 4 <= TOUCH_CALLBACK_DATA_SIZE <= 255.

Lemma receive_size : 4 <= RECEIVE_CALLBACK_DATA_SIZE <= 255.
Proof. exact callback_size. Qed.

Lemma tDataSize_bounds ty : 4 <= tDataSize ty <= RECEIVE_CALLBACK_DATA_SIZE.
Proof.
  unfold tDataSize, RECEIVE_CALLBACK_DATA_SIZE, RECEIVE_TOUCH_OR_DISPLAY_DATA_SIZE.
  destruct (ty <? EVENT_TAG_FIRST_CALLBACK_ACTION_CODE); lia.
Qed.

Lemma store_byte_in_range b s :
  0 <= sReceiveBufferIndex s < RECEIVE_CALLBACK_DATA_SIZE ->
  store_byte b s =
  Some (set_receiver (<[Z.to_nat (sReceiveBufferIndex s) := b]> (sReceiveBuffer s))
          (sReceiveBufferIndex s + 1) (sReceiveBufferOutOfSync s) (sReceivedEventType s) s).
Proof.
  intros Hi. unfold store_byte.
  replace (0 <=? sReceiveBufferIndex s) with true by (symmetry; apply Z.leb_le; lia).
  replace (sReceiveBufferIndex s <? RECEIVE_CALLBACK_DATA_SIZE) with true
    by (symmetry; apply Z.ltb_lt; lia).
  simpl. rewrite uint8_small; [reflexivity |].
  unfold RECEIVE_CALLBACK_DATA_SIZE in Hi. lia.
Qed.

Lemma receive_app s xs ys :
  receive s (xs ++ ys) =
  match receive s xs with Some s' => receive s' ys | None => None end.
Proof.
  revert s. induction xs as [| x xs IH]; intros s; simpl; [reflexivity |].
  destruct (ISR s x); [apply IH | reflexivity].
Qed.

(** In sync and with an event type, the routine stores below [tDataSize]. *)
Lemma ISR_collect s b :
  sReceiveBufferOutOfSync s = false ->
  sReceivedEventType s <> EVENT_TAG_NO_EVENT ->
  0 <= sReceiveBufferIndex s < tDataSize (sReceivedEventType s) ->
  ISR s b =
  Some (set_receiver (<[Z.to_nat (sReceiveBufferIndex s) := b]> (sReceiveBuffer s))
          (sReceiveBufferIndex s + 1) false (sReceivedEventType s) s).
Proof.
  intros Hsync Hty Hi. unfold ISR. rewrite Hsync.
  replace (sReceivedEventType s =? EVENT_TAG_NO_EVENT) with false
    by (symmetry; apply Z.eqb_neq; exact Hty).
  replace (sReceiveBufferIndex s =? tDataSize (sReceivedEventType s)) with false
    by (symmetry; apply Z.eqb_neq; lia).
  pose proof (tDataSize_bounds (sReceivedEventType s)) as Hb.
  rewrite store_byte_in_range by lia. rewrite Hsync. reflexivity.
Qed.

(** Payload bytes go to the buffer one behind the other, as long as they
    stay below [tDataSize]. *)
Lemma receive_collect P : forall s,
  sReceiveBufferOutOfSync s = false ->
  sReceivedEventType s <> EVENT_TAG_NO_EVENT ->
  0 <= sReceiveBufferIndex s ->
  sReceiveBufferIndex s + Z.of_nat (length P) <= tDataSize (sReceivedEventType s) ->
  buffer_ok s ->
  receive s P =
  Some (set_receiver
          (take (Z.to_nat (sReceiveBufferIndex s)) (sReceiveBuffer s) ++ P
           ++ drop (Z.to_nat (sReceiveBufferIndex s) + length P) (sReceiveBuffer s))
          (sReceiveBufferIndex s + Z.of_nat (length P)) false (sReceivedEventType s) s).
Proof.
  induction P as [| b P IH]; intros s Hsync Hty Hlo Hhi Hbuf.
  - simpl. rewrite Nat.add_0_r, take_drop, Z.add_0_r, <- Hsync. f_equal. symmetry. apply state_eta.
  - simpl receive. change (length (b :: P)) with (S (length P)) in Hhi.
    rewrite ISR_collect by (try assumption; lia).
    pose proof (tDataSize_bounds (sReceivedEventType s)) as Hb.
    unfold buffer_ok in Hbuf.
    rewrite IH; simpl.
    + f_equal. unfold set_receiver; simpl. f_equal; [| lia].
      replace (Z.to_nat (sReceiveBufferIndex s + 1)) with (S (Z.to_nat (sReceiveBufferIndex s))) by lia.
      apply splice_insert. lia.
    + reflexivity.
    + exact Hty.
    + lia.
    + lia.
    + unfold buffer_ok. simpl. rewrite length_insert. exact Hbuf.
Qed.

(** The two header bytes. *)
Lemma ISR_length_byte s len :
  receiver_reset s -> buffer_ok s ->
  ISR s len = Some (set_receiver (<[0%nat := len]> (sReceiveBuffer s)) 1 false
                      EVENT_TAG_NO_EVENT s).
Proof.
  intros (Hsync & Hty & Hidx) Hbuf. unfold ISR. rewrite Hsync, Hty, Z.eqb_refl, Hidx.
  simpl. pose proof receive_size as Hsize.
  rewrite store_byte_in_range by (rewrite Hidx; lia).
  rewrite Hidx, Hsync, Hty. reflexivity.
Qed.

Lemma receive_header s len tag :
  receiver_reset s -> buffer_ok s ->
  receive s [len; tag] =
  Some (set_receiver (<[0%nat := len]> (sReceiveBuffer s)) 0 false tag s).
Proof.
  intros Hreset Hbuf. simpl. rewrite ISR_length_byte by assumption.
  unfold ISR. simpl. rewrite Z.eqb_refl. reflexivity.
Qed.

(** With a full payload in the buffer the next byte is compared with the
    sync token, and is not stored. *)
Lemma ISR_complete s :
  sReceiveBufferOutOfSync s = false ->
  sReceivedEventType s <> EVENT_TAG_NO_EVENT ->
  sReceiveBufferIndex s = tDataSize (sReceivedEventType s) ->
  ISR s SYNC_TOKEN =
  Some (let p := destination (sReceivedEventType s) in
        let s2 := set_receiver (sReceiveBuffer s) 0 false EVENT_TAG_NO_EVENT
                    (assign p {| EventType := sReceivedEventType s;
                                 ByteArray := memcpy (ByteArray (deref s p)) (sReceiveBuffer s)
                                                (tDataSize (sReceivedEventType s)) |} s) in
        if allowTouchInterrupts s then assign p (handleEvent (deref s2 p)) s2 else s2).
Proof.
  intros Hsync Hty Hidx. unfold ISR. rewrite Hsync.
  replace (sReceivedEventType s =? EVENT_TAG_NO_EVENT) with false
    by (symmetry; apply Z.eqb_neq; exact Hty).
  rewrite Hidx, !Z.eqb_refl. unfold destination.
  destruct (sReceivedEventType s =? EVENT_TAG_TOUCH_ACTION_DOWN);
    simpl; rewrite Hsync; destruct (allowTouchInterrupts s); reflexivity.
Qed.

Lemma ISR_glitch s b :
  sReceiveBufferOutOfSync s = false ->
  sReceivedEventType s <> EVENT_TAG_NO_EVENT ->
  sReceiveBufferIndex s = tDataSize (sReceivedEventType s) ->
  b <> SYNC_TOKEN ->
  ISR s b = Some (set_receiver (sReceiveBuffer s) 0 true (sReceivedEventType s) s).
Proof.
  intros Hsync Hty Hidx Hb. unfold ISR. rewrite Hsync.
  replace (sReceivedEventType s =? EVENT_TAG_NO_EVENT) with false
    by (symmetry; apply Z.eqb_neq; exact Hty).
  rewrite Hidx, Z.eqb_refl.
  replace (b =? SYNC_TOKEN) with false by (symmetry; apply Z.eqb_neq; exact Hb).
  reflexivity.
Qed.

(** Header and payload of a well formed frame, up to the byte before the
    trailing sync token. *)
Lemma receive_frame_body s f :
  receiver_reset s -> buffer_ok s -> well_formed f ->
  receive s (frame_length f :: frame_tag f :: frame_payload f) =
  Some (set_receiver
          (frame_payload f ++ drop (length (frame_payload f)) (sReceiveBuffer s))
          (tDataSize (frame_tag f)) false (frame_tag f) s).
Proof.
  intros Hreset Hbuf (Htag & Hlen).
  change (frame_length f :: frame_tag f :: frame_payload f)
    with ([frame_length f; frame_tag f] ++ frame_payload f).
  rewrite receive_app, receive_header by assumption.
  pose proof (tDataSize_bounds (frame_tag f)) as Hb.
  rewrite receive_collect; simpl; try reflexivity; try assumption; try lia.
  - f_equal. unfold set_receiver; simpl. f_equal; [| lia].
    rewrite drop_insert_lt by lia. reflexivity.
  - unfold buffer_ok. simpl. rewrite length_insert. exact Hbuf.
Qed.

(** A well formed frame, fed to the reset receiver, is taken in. *)
Lemma receive_frame s f :
  receiver_reset s -> buffer_ok s -> well_formed f ->
  receive s (wire f) = Some (deliver s f).
Proof.
  intros Hreset Hbuf Hwf. unfold wire.
  change (frame_length f :: frame_tag f :: frame_payload f ++ [SYNC_TOKEN])
    with ((frame_length f :: frame_tag f :: frame_payload f) ++ [SYNC_TOKEN]).
  rewrite receive_app, receive_frame_body by assumption.
  destruct Hwf as (Htag & Hlen).
  simpl receive. rewrite ISR_complete by (simpl; auto).
  unfold deliver. simpl.
  assert (Hcopy : forall old, memcpy old
            (frame_payload f ++ drop (length (frame_payload f)) (sReceiveBuffer s))
            (tDataSize (frame_tag f))
          = frame_payload f ++ drop (length (frame_payload f)) old).
  { intros old. unfold memcpy. rewrite <- Hlen, Nat2Z.id, take_app_length. reflexivity. }
  unfold event_of.
  destruct (destination (frame_tag f)); simpl; rewrite Hcopy;
    destruct (allowTouchInterrupts s); reflexivity.
Qed.

(** The slot of a frame that was taken in. *)
Lemma deliver_event s f :
  deref (deliver s f) (destination (frame_tag f))
  = (if allowTouchInterrupts s
     then handleEvent (event_of f (deref s (destination (frame_tag f))))
     else event_of f (deref s (destination (frame_tag f)))).
Proof.
  unfold deliver.
  destruct (allowTouchInterrupts s), (destination (frame_tag f)); reflexivity.
Qed.

Lemma deliver_reset s f : receiver_reset (deliver s f).
Proof.
  unfold deliver, receiver_reset.
  destruct (allowTouchInterrupts s), (destination (frame_tag f)); simpl; auto.
Qed.

Lemma deliver_buffer_ok s f :
  buffer_ok s -> well_formed f -> buffer_ok (deliver s f).
Proof.
  intros Hbuf (_ & Hlen). pose proof (tDataSize_bounds (frame_tag f)) as Hb.
  unfold buffer_ok in *.
  assert (Hl : Z.of_nat (length (frame_payload f ++ drop (length (frame_payload f)) (sReceiveBuffer s)))
               = RECEIVE_CALLBACK_DATA_SIZE).
  { rewrite length_app, length_drop. lia. }
  unfold deliver.
  destruct (allowTouchInterrupts s), (destination (frame_tag f)); simpl; exact Hl.
Qed.

Lemma receive_frames frames : forall s,
  receiver_reset s -> buffer_ok s -> Forall well_formed frames ->
  receive s (concat (map wire frames)) = Some (fold_left deliver frames s).
Proof.
  induction frames as [| f frames IH]; intros s Hreset Hbuf Hwf; [reflexivity |].
  inversion Hwf as [| ? ? Hf Hrest]; subst.
  change (concat (map wire (f :: frames))) with (wire f ++ concat (map wire frames)).
  rewrite receive_app, receive_frame by assumption.
  simpl fold_left. apply IH; [apply deliver_reset | apply deliver_buffer_ok; assumption | exact Hrest].
Qed.

Lemma receive_out_of_sync garbage : forall s,
  sReceiveBufferOutOfSync s = true ->
  Forall (fun b => b <> SYNC_TOKEN) garbage ->
  receive s garbage = Some s.
Proof.
  induction garbage as [| b garbage IH]; intros s Hoos Hg; [reflexivity |].
  inversion Hg as [| ? ? Hb Hrest]; subst.
  simpl. unfold ISR. rewrite Hoos.
  replace (b =? SYNC_TOKEN) with false by (symmetry; apply Z.eqb_neq; exact Hb).
  apply IH; assumption.
Qed.

(** C1, as amended.  A well formed event frame (length byte, tag [T] other
    than [EVENT_TAG_NO_EVENT], payload [P] of the size the tag implies,
    [SYNC_TOKEN]), fed byte by byte to the reset receiver, is taken in.  With
    [allowTouchInterrupts] false the destination slot is left with
    [EventType = T] and [P] as its first bytes.  With [allowTouchInterrupts]
    true the slot with that content is handed to [handleEvent] within the
    interrupt routine and is left as [handleEvent] returns it. *)
Theorem framing_round_trip s f :
  receiver_reset s -> buffer_ok s -> well_formed f ->
  exists s', receive s (wire f) = Some s'
    /\ (allowTouchInterrupts s = false ->
        EventType (deref s' (destination (frame_tag f))) = frame_tag f
        /\ take (length (frame_payload f)) (ByteArray (deref s' (destination (frame_tag f))))
           = frame_payload f)
    /\ (allowTouchInterrupts s = true ->
        exists e, EventType e = frame_tag f
          /\ take (length (frame_payload f)) (ByteArray e) = frame_payload f
          /\ deref s' (destination (frame_tag f)) = handleEvent e).
Proof.
  intros Hreset Hbuf Hwf. exists (deliver s f). split; [apply receive_frame; assumption |].
  rewrite deliver_event. split; intros Hallow; rewrite Hallow.
  - split; [reflexivity | apply take_app_length].
  - exists (event_of f (deref s (destination (frame_tag f)))).
    split; [reflexivity |]. split; [apply take_app_length | reflexivity].
Qed.

(** C3.  When the receiver has a full payload (in sync, an event type, the
    index at the expected size) and the next byte is not [SYNC_TOKEN], the
    routine sets the out-of-sync flag and the index to 0 and changes nothing
    else, so both event slots keep type and payload.  For a whole frame with
    a wrong last byte, fed to the reset receiver: the receiver ends out of
    sync with index 0, and both slots are as they were before the frame. *)
Theorem trailing_sync_mismatch :
  (forall s b,
     sReceiveBufferOutOfSync s = false ->
     sReceivedEventType s <> EVENT_TAG_NO_EVENT ->
     sReceiveBufferIndex s = tDataSize (sReceivedEventType s) ->
     b <> SYNC_TOKEN ->
     exists s', ISR s b = Some s'
       /\ sReceiveBufferOutOfSync s' = true
       /\ sReceiveBufferIndex s' = 0
       /\ remoteTouchEvent s' = remoteTouchEvent s
       /\ remoteTouchDownEvent s' = remoteTouchDownEvent s)
  /\ (forall s f b,
        receiver_reset s -> buffer_ok s -> well_formed f -> b <> SYNC_TOKEN ->
        exists s',
          receive s (frame_length f :: frame_tag f :: frame_payload f ++ [b]) = Some s'
          /\ sReceiveBufferOutOfSync s' = true
          /\ sReceiveBufferIndex s' = 0
          /\ remoteTouchEvent s' = remoteTouchEvent s
          /\ remoteTouchDownEvent s' = remoteTouchDownEvent s).
Proof.
  split.
  - intros s b Hsync Hty Hidx Hb.
    eexists. split; [apply ISR_glitch; assumption |]. simpl. auto.
  - intros s f b Hreset Hbuf Hwf Hb.
    change (frame_length f :: frame_tag f :: frame_payload f ++ [b])
      with ((frame_length f :: frame_tag f :: frame_payload f) ++ [b]).
    rewrite receive_app, receive_frame_body by assumption.
    destruct Hwf as (Htag & Hlen). simpl receive.
    rewrite ISR_glitch by (simpl; auto).
    eexists. split; [reflexivity |]. simpl. auto.
Qed.

(** C4.  Out of sync, a byte other than [SYNC_TOKEN] changes nothing, so any
    run of such bytes leaves the receiver out of sync; [SYNC_TOKEN] takes it,
    in that one call, to in sync, event type [EVENT_TAG_NO_EVENT], index 0,
    and nothing else changes.  The well formed frames that follow are then
    taken in one after the other. *)
Theorem resync_convergence s garbage frames :
  sReceiveBufferOutOfSync s = true -> buffer_ok s ->
  Forall (fun b => b <> SYNC_TOKEN) garbage ->
  Forall well_formed frames ->
  (forall b, b <> SYNC_TOKEN -> ISR s b = Some s)
  /\ receive s garbage = Some s
  /\ ISR s SYNC_TOKEN = Some (set_receiver (sReceiveBuffer s) 0 false EVENT_TAG_NO_EVENT s)
  /\ receive s (garbage ++ [SYNC_TOKEN])
     = Some (set_receiver (sReceiveBuffer s) 0 false EVENT_TAG_NO_EVENT s)
  /\ receive s (garbage ++ [SYNC_TOKEN] ++ concat (map wire frames))
     = Some (fold_left deliver frames
               (set_receiver (sReceiveBuffer s) 0 false EVENT_TAG_NO_EVENT s)).
Proof.
  intros Hoos Hbuf Hg Hwf.
  assert (Hstay : forall b, b <> SYNC_TOKEN -> ISR s b = Some s).
  { intros b Hb. unfold ISR. rewrite Hoos.
    replace (b =? SYNC_TOKEN) with false by (symmetry; apply Z.eqb_neq; exact Hb).
    reflexivity. }
  assert (Hsync : ISR s SYNC_TOKEN
                  = Some (set_receiver (sReceiveBuffer s) 0 false EVENT_TAG_NO_EVENT s)).
  { unfold ISR. rewrite Hoos, Z.eqb_refl. reflexivity. }
  repeat split; try assumption.
  - apply receive_out_of_sync; assumption.
  - rewrite receive_app, receive_out_of_sync by assumption. simpl. rewrite Hsync. reflexivity.
  - rewrite receive_app, receive_out_of_sync by assumption.
    simpl receive. rewrite Hsync.
    apply receive_frames; [repeat split | exact Hbuf | exact Hwf].
Qed.

(** C5.  A well formed frame whose tag is not [EVENT_TAG_TOUCH_ACTION_DOWN]
    (a touch move, say), fed to the reset receiver, leaves
    [remoteTouchDownEvent] as it was, type and payload, whatever it holds, an
    unconsumed touch down event in particular: the frame is written to
    [remoteTouchEvent], which is also the one slot [handleEvent] is handed. *)
Theorem down_event_protection s f :
  receiver_reset s -> buffer_ok s -> well_formed f ->
  frame_tag f <> EVENT_TAG_TOUCH_ACTION_DOWN ->
  exists s', receive s (wire f) = Some s'
    /\ remoteTouchDownEvent s' = remoteTouchDownEvent s
    /\ remoteTouchEvent s'
       = (if allowTouchInterrupts s
          then handleEvent (event_of f (remoteTouchEvent s))
          else event_of f (remoteTouchEvent s)).
Proof.
  intros Hreset Hbuf Hwf Hdown. exists (deliver s f).
  split; [apply receive_frame; assumption |].
  unfold deliver, destination.
  replace (frame_tag f =? EVENT_TAG_TOUCH_ACTION_DOWN) with false
    by (symmetry; apply Z.eqb_neq; exact Hdown).
  destruct (allowTouchInterrupts s); simpl; auto.
Qed.

(** The byte behind the header overwrites the length byte. *)
Lemma ISR_after_header s len tag b :
  ISR (set_receiver (<[0%nat := len]> (sReceiveBuffer s)) 0 false tag s) b
  = Some (set_receiver (<[0%nat := b]> (sReceiveBuffer s)) 1 false tag s).
Proof.
  pose proof receive_size as Hsize. pose proof (tDataSize_bounds tag) as Hb.
  assert (Hstore : store_byte b (set_receiver (<[0%nat := len]> (sReceiveBuffer s)) 0 false tag s)
                   = Some (set_receiver (<[0%nat := b]> (sReceiveBuffer s)) 1 false tag s)).
  { rewrite store_byte_in_range by (simpl; lia). simpl.
    rewrite list_insert_insert_eq. reflexivity. }
  unfold ISR. cbn [set_receiver sReceiveBufferOutOfSync sReceivedEventType sReceiveBufferIndex].
  destruct (Z.eqb_spec 0 (tDataSize tag)) as [H0 | _]; [lia |].
  destruct (tag =? EVENT_TAG_NO_EVENT); [| exact Hstore].
  destruct (Z.eqb_spec 0 1) as [H01 | _]; [discriminate H01 | exact Hstore].
Qed.

(** C6, as amended.  From the reset receiver the first byte, the length, is
    stored in the buffer and the second becomes the event type, with the index
    back at 0.  The length byte has no part in what follows: with another
    length byte the same bytes lead to the same state.  For a tag other than
    [EVENT_TAG_NO_EVENT] the expected size is 4 below
    [EVENT_TAG_FIRST_CALLBACK_ACTION_CODE] and the callback data size from
    there on: that many bytes are collected from index 0, and the byte behind
    them is compared with [SYNC_TOKEN]. *)
Theorem header_decoding s len tag :
  receiver_reset s -> buffer_ok s ->
  ISR s len = Some (set_receiver (<[0%nat := len]> (sReceiveBuffer s)) 1 false
                      EVENT_TAG_NO_EVENT s)
  /\ receive s [len; tag]
     = Some (set_receiver (<[0%nat := len]> (sReceiveBuffer s)) 0 false tag s)
  /\ (forall len' b rest,
        receive s (len :: tag :: b :: rest) = receive s (len' :: tag :: b :: rest))
  /\ (tag <> EVENT_TAG_NO_EVENT ->
      tDataSize tag = (if tag <? EVENT_TAG_FIRST_CALLBACK_ACTION_CODE
                       then 4 else TOUCH_CALLBACK_DATA_SIZE)
      /\ (forall P, Z.of_nat (length P) <= tDataSize tag ->
            receive s (len :: tag :: P)
            = Some (set_receiver (P ++ drop (length P) (<[0%nat := len]> (sReceiveBuffer s)))
                      (Z.of_nat (length P)) false tag s))
      /\ (forall P b, Z.of_nat (length P) = tDataSize tag ->
            receive s (len :: tag :: P ++ [b])
            = Some (if b =? SYNC_TOKEN
                    then deliver s {| frame_length := len; frame_tag := tag;
                                      frame_payload := P |}
                    else set_receiver (P ++ drop (length P) (sReceiveBuffer s))
                           0 true tag s))).
Proof.
  intros Hreset Hbuf.
  split; [apply ISR_length_byte; assumption |].
  split; [apply receive_header; assumption |].
  split.
  - intros len' b rest.
    change (len :: tag :: b :: rest) with ([len; tag] ++ b :: rest).
    change (len' :: tag :: b :: rest) with ([len'; tag] ++ b :: rest).
    rewrite !receive_app, !receive_header by assumption.
    simpl. rewrite !ISR_after_header. reflexivity.
  - intros Htag. split; [reflexivity |]. split.
    + intros P HP.
      change (len :: tag :: P) with ([len; tag] ++ P).
      rewrite receive_app, receive_header by assumption.
      rewrite receive_collect; simpl; try reflexivity; try assumption; try lia.
      unfold buffer_ok. simpl. rewrite length_insert. exact Hbuf.
    + intros P b HP.
      set (f := {| frame_length := len; frame_tag := tag; frame_payload := P |}).
      assert (Hwf : well_formed f) by (split; assumption).
      destruct (Z.eqb_spec b SYNC_TOKEN) as [-> | Hb].
      * apply (receive_frame s f); assumption.
      * change (len :: tag :: P ++ [b])
          with ((frame_length f :: frame_tag f :: frame_payload f) ++ [b]).
        rewrite receive_app, receive_frame_body by assumption.
        simpl receive. rewrite ISR_glitch by (simpl; auto). reflexivity.
Qed.

Lemma ISR_index_in_bounds s b s' :
  index_in_bounds s -> ISR s b = Some s' -> index_in_bounds s'.
Proof.
  intros (Hbuf & Hidx & Hhdr) Hstep.
  pose proof receive_size as Hsize.
  pose proof (tDataSize_bounds (sReceivedEventType s)) as Hb.
  pose proof (tDataSize_bounds EVENT_TAG_NO_EVENT) as Hb0.
  pose proof (tDataSize_bounds b) as Hb1.
  unfold index_in_bounds, buffer_ok in *. unfold ISR in Hstep.
  destruct (sReceiveBufferOutOfSync s).
  { destruct (b =? SYNC_TOKEN); inversion Hstep; subst; simpl; auto.
    repeat split; auto; lia. }
  destruct (Z.eqb_spec (sReceivedEventType s) EVENT_TAG_NO_EVENT) as [Hty | Hty].
  - specialize (Hhdr Hty).
    destruct (Z.eqb_spec (sReceiveBufferIndex s) 1) as [H1 | H1].
    + inversion Hstep; subst; simpl. repeat split; auto; lia.
    + rewrite store_byte_in_range in Hstep by lia.
      inversion Hstep; subst; simpl. rewrite length_insert.
      repeat split; auto; lia.
  - destruct (Z.eqb_spec (sReceiveBufferIndex s) (tDataSize (sReceivedEventType s)))
      as [Hfull | Hfull].
    + destruct (b =? SYNC_TOKEN).
      * destruct (sReceivedEventType s =? EVENT_TAG_TOUCH_ACTION_DOWN);
          simpl in Hstep; destruct (allowTouchInterrupts s);
          inversion Hstep; subst; simpl; repeat split; auto; lia.
      * inversion Hstep; subst; simpl.
        repeat split; auto; try lia; try (intros; contradiction).
    + rewrite store_byte_in_range in Hstep by lia.
      inversion Hstep; subst; simpl. rewrite length_insert.
      repeat split; auto; try lia; try (intros; contradiction).
Qed.

Lemma reachable_index_in_bounds s : reachable s -> index_in_bounds s.
Proof.
  induction 1 as [s (Hsync & Hty & Hidx) Hbuf | s b s' _ IH Hstep
                  | s s' _ IH (Hb & Hi & Ho & Ht)].
  - pose proof (tDataSize_bounds (sReceivedEventType s)) as Hb.
    unfold index_in_bounds. rewrite Hidx. repeat split; auto; lia.
  - eapply ISR_index_in_bounds; eassumption.
  - unfold index_in_bounds, buffer_ok in *. rewrite Hb, Hi, Ht. exact IH.
Qed.

Lemma ISR_total s b : index_in_bounds s -> exists s', ISR s b = Some s'.
Proof.
  intros (Hbuf & Hidx & Hhdr).
  pose proof (tDataSize_bounds (sReceivedEventType s)) as Hb.
  unfold ISR.
  destruct (sReceiveBufferOutOfSync s).
  { destruct (b =? SYNC_TOKEN); eauto. }
  destruct (Z.eqb_spec (sReceivedEventType s) EVENT_TAG_NO_EVENT) as [Hty | Hty].
  - specialize (Hhdr Hty).
    destruct (Z.eqb_spec (sReceiveBufferIndex s) 1); [eauto |].
    rewrite store_byte_in_range by lia. eauto.
  - destruct (Z.eqb_spec (sReceiveBufferIndex s) (tDataSize (sReceivedEventType s))).
    + destruct (b =? SYNC_TOKEN); [| eauto].
      simpl. match goal with |- context [if ?c then _ else _] => destruct c end; eauto.
    + rewrite store_byte_in_range by lia. eauto.
Qed.

Lemma receive_total bytes : forall s,
  reachable s -> exists s', receive s bytes = Some s' /\ reachable s'.
Proof.
  induction bytes as [| b bytes IH]; intros s Hs; [eauto |].
  destruct (ISR_total s b (reachable_index_in_bounds s Hs)) as (s1 & Hs1).
  simpl. rewrite Hs1. apply IH. eapply reach_isr; eassumption.
Qed.

(** C9.  In every state reachable from start-up, by interrupts on any bytes
    and by the main program in between: the buffer index is at most the data
    size of the current event type, which is at most
    [RECEIVE_CALLBACK_DATA_SIZE], the number of elements of the buffer; the
    interrupt routine does not fail, on any byte, that is, it does not store
    outside of the buffer; when it stores, it stores at the index, which is
    then below the data size, and when it does not, the buffer is unchanged.
    So any sequence of bytes is processed to the end within these bounds. *)
Theorem receive_buffer_index_bound s :
  reachable s ->
  0 <= sReceiveBufferIndex s <= tDataSize (sReceivedEventType s)
  /\ tDataSize (sReceivedEventType s) <= RECEIVE_CALLBACK_DATA_SIZE
  /\ Z.of_nat (length (sReceiveBuffer s)) = RECEIVE_CALLBACK_DATA_SIZE
  /\ (forall tByte,
        (exists s', ISR s tByte = Some s')
        /\ (ISR_stores s = true ->
            ISR s tByte = store_byte tByte s
            /\ sReceiveBufferIndex s < tDataSize (sReceivedEventType s))
        /\ (ISR_stores s = false ->
            forall s', ISR s tByte = Some s' -> sReceiveBuffer s' = sReceiveBuffer s))
  /\ (forall bytes, exists s',
        receive s bytes = Some s' /\ reachable s'
        /\ 0 <= sReceiveBufferIndex s' <= tDataSize (sReceivedEventType s')).
Proof.
  intros Hs. pose proof (reachable_index_in_bounds s Hs) as Hinv.
  destruct Hinv as (Hbuf & Hidx & Hhdr).
  pose proof (tDataSize_bounds (sReceivedEventType s)) as Hb.
  split; [exact Hidx |]. split; [lia |]. split; [exact Hbuf |]. split.
  - intros b.
    split; [apply ISR_total; split; [exact Hbuf | split; [exact Hidx | exact Hhdr]] |].
    split.
    + unfold ISR_stores, ISR. intros Hst.
      destruct (sReceiveBufferOutOfSync s); [discriminate |]. simpl in Hst.
      destruct (Z.eqb_spec (sReceivedEventType s) EVENT_TAG_NO_EVENT) as [Hty | Hty].
      * specialize (Hhdr Hty).
        destruct (Z.eqb_spec (sReceiveBufferIndex s) 1); [discriminate |].
        split; [reflexivity | lia].
      * destruct (Z.eqb_spec (sReceiveBufferIndex s) (tDataSize (sReceivedEventType s)));
          [discriminate |].
        split; [reflexivity | lia].
    + unfold ISR_stores, ISR. intros Hst s' Hstep.
      destruct (sReceiveBufferOutOfSync s).
      { destruct (b =? SYNC_TOKEN); inversion Hstep; reflexivity. }
      simpl in Hst.
      destruct (sReceivedEventType s =? EVENT_TAG_NO_EVENT).
      * destruct (sReceiveBufferIndex s =? 1); [| discriminate].
        inversion Hstep; reflexivity.
      * destruct (sReceiveBufferIndex s =? tDataSize (sReceivedEventType s)); [| discriminate].
        destruct (b =? SYNC_TOKEN); [| inversion Hstep; reflexivity].
        destruct (sReceivedEventType s =? EVENT_TAG_TOUCH_ACTION_DOWN);
          simpl in Hstep; destruct (allowTouchInterrupts s);
          inversion Hstep; reflexivity.
  - intros bytes. destruct (receive_total bytes s Hs) as (s' & Hrun & Hs').
    exists s'. split; [exact Hrun |]. split; [exact Hs' |].
    apply (reachable_index_in_bounds s' Hs').
Qed.

End ReceiverTheory.

(** ** The sender *)

Lemma length_usart_write m p n : length (usart_write m p n) = n.
Proof. revert p. induction n as [| n IH]; intros p; simpl; [reflexivity |]. now rewrite IH. Qed.

Lemma usart_write_ext m m' n : forall p,
  (forall a, p <= a < p + Z.of_nat n -> m a = m' a) ->
  usart_write m p n = usart_write m' p n.
Proof.
  induction n as [| n IH]; intros p Hext; simpl; [reflexivity |].
  rewrite (Hext p) by lia. f_equal. apply IH. intros a Ha. apply Hext. lia.
Qed.

Lemma usart_write_app m n1 n2 : forall p,
  usart_write m p (n1 + n2) = usart_write m p n1 ++ usart_write m (p + Z.of_nat n1) n2.
Proof.
  induction n1 as [| n1 IH]; intros p.
  - simpl. now rewrite Z.add_0_r.
  - simpl usart_write. rewrite IH. simpl. do 3 f_equal. lia.
Qed.

Lemma usart_write_bytes_at ram p n :
  0 <= n -> usart_write ram p (Z.to_nat n) = bytes_at ram p n.
Proof.
  intros _. unfold bytes_at. generalize (Z.to_nat n) as k. intros k. revert p.
  induction k as [| k IH]; intros p; simpl; [reflexivity |].
  rewrite Z.add_0_r. f_equal. rewrite IH, <- seq_shift, map_map.
  apply map_ext. intros i. f_equal. lia.
Qed.

Lemma store16_other m p w a : a < p \/ p + 1 < a -> store16 m p w a = m a.
Proof.
  intros Ha. unfold store16.
  destruct (Z.eqb_spec a p); [lia |]. destruct (Z.eqb_spec a (p + 1)); [lia | reflexivity].
Qed.

Lemma usart_write_store16 m p w : usart_write (store16 m p w) p 2 = le16 w.
Proof.
  simpl. unfold store16, le16. rewrite Z.eqb_refl.
  destruct (Z.eqb_spec (p + 1) p); [lia |]. now rewrite Z.eqb_refl.
Qed.

Lemma write_words_below ws : forall m p a, a < p -> write_words m p ws a = m a.
Proof.
  induction ws as [| w ws IH]; intros m p a Ha; simpl; [reflexivity |].
  rewrite IH by lia. apply store16_other. lia.
Qed.

Lemma write_words_app ws1 ws2 : forall m p,
  write_words m p (ws1 ++ ws2)
  = write_words (write_words m p ws1) (p + 2 * Z.of_nat (length ws1)) ws2.
Proof.
  induction ws1 as [| w ws1 IH]; intros m p; simpl write_words.
  - simpl. now rewrite Z.add_0_r.
  - rewrite IH. f_equal. simpl length. lia.
Qed.

(** Sending what was just stored word by word. *)
Lemma usart_write_words ws : forall m p,
  usart_write (write_words m p ws) p (2 * length ws) = words_le ws.
Proof.
  induction ws as [| w ws IH]; intros m p; [reflexivity |].
  simpl length. replace (2 * S (length ws))%nat with (2 + 2 * length ws)%nat by lia.
  rewrite usart_write_app. simpl write_words.
  change (words_le (w :: ws)) with (le16 w ++ words_le ws). f_equal.
  - rewrite <- (usart_write_store16 m p w). apply usart_write_ext.
    intros a Ha. apply write_words_below. change (Z.of_nat 2) with 2 in Ha. lia.
  - change (Z.of_nat 2) with 2. apply IH.
Qed.

Lemma length_words_le ws : length (words_le ws) = (2 * length ws)%nat.
Proof.
  induction ws as [| w ws IH]; [reflexivity |].
  change (words_le (w :: ws)) with (le16 w ++ words_le ws).
  rewrite length_app, IH. simpl. lia.
Qed.

(** The loop over the variadic arguments stores them as words. *)
Lemma copy_args_words args : forall rest m p,
  Forall is_uint16 args ->
  copy_args (length args) (args ++ rest) m p
  = (write_words m p args, p + 2 * Z.of_nat (length args), rest).
Proof.
  induction args as [| a args IH]; intros rest m p Hargs.
  - simpl. now rewrite Z.add_0_r.
  - inversion Hargs as [| ? ? Ha Hrest]; subst.
    cbn [length app copy_args va_arg].
    rewrite uint16_int16, (uint16_small a) by exact Ha.
    rewrite IH by exact Hrest. cbn [write_words]. do 2 f_equal. lia.
Qed.

Section SenderTheory.
Context {hdr : Headers}.
(** The sync token is a byte. *)
Hypothesis sync_token_byte : 0 <= SYNC_TOKEN < 256.

(** [tag << 8 | SYNC_TOKEN] has the tag in the high and the token in the low
    byte. *)
Lemma header_word tag :
  is_uint8 tag -> Z.lor (Z.shiftl tag 8) SYNC_TOKEN = tag * 256 + SYNC_TOKEN.
Proof.
  intros Htag. rewrite Z.shiftl_mul_pow2 by lia. change (2 ^ 8) with 256.
  assert (Hland : Z.land (tag * 256) SYNC_TOKEN = 0); [| now rewrite <- Z.lxor_lor, Z.add_nocarry_lxor].
  apply Z.bits_inj'. intros n Hn.
  rewrite Z.land_spec, Z.bits_0.
  destruct (Z.lt_ge_cases n 8) as [Hlt | Hge].
  - change 256 with (2 ^ 8). rewrite Z.mul_pow2_bits_low by lia. reflexivity.
  - replace (Z.testbit SYNC_TOKEN n) with false; [apply andb_false_r |].
    symmetry. destruct (Z.eq_dec SYNC_TOKEN 0) as [-> | Hnz]; [apply Z.bits_0 |].
    apply Z.bits_above_log2; [lia |].
    apply Z.lt_le_trans with 8; [| exact Hge].
    apply Z.log2_lt_pow2; [lia |]. change (2 ^ 8) with 256. lia.
Qed.

Lemma header_word_range tag :
  is_uint8 tag -> 0 <= Z.lor (Z.shiftl tag 8) SYNC_TOKEN < 65536.
Proof. intros Htag. rewrite header_word by exact Htag. unfold is_uint8 in Htag. lia. Qed.

Lemma le16_header_word tag :
  is_uint8 tag -> le16 (Z.lor (Z.shiftl tag 8) SYNC_TOKEN) = [SYNC_TOKEN; tag].
Proof.
  intros Htag. rewrite header_word by exact Htag. unfold le16, is_uint8 in *.
  f_equal; [| f_equal].
  - rewrite Z.add_comm, Z.mod_add by lia. apply Z.mod_small. lia.
  - rewrite Z.add_comm, Z.div_add by lia.
    rewrite (Z.div_small SYNC_TOKEN 256) by lia. apply Z.mod_small. lia.
Qed.

(** C2.  With more than [MAX_NUMBER_OF_ARGS] = 12 arguments announced, 13 in
    particular, [sendUSARTArgs] and [sendUSARTArgsAndByteBuffer] return
    before anything is written to the USART: no byte is transmitted. *)
Theorem argument_cap stack ram tag N argp :
  N > 12 ->
  sendUSARTArgs stack tag N argp = []
  /\ sendUSARTArgsAndByteBuffer stack ram tag N argp = [].
Proof.
  intros HN. unfold sendUSARTArgs, sendUSARTArgsAndByteBuffer, MAX_NUMBER_OF_ARGS.
  replace (N >? 12) with true by (symmetry; apply Z.gtb_lt; lia).
  split; reflexivity.
Qed.

(** The parameter block of a call with [N] arguments, [0 <= N <= 12]. *)
Lemma sendUSARTArgs_words stack tag N args :
  is_uint8 tag -> 0 <= N <= 12 -> Z.of_nat (length args) = N -> Forall is_uint16 args ->
  sendUSARTArgs stack tag N args
  = words_le (Z.lor (Z.shiftl tag 8) SYNC_TOKEN :: 2 * N :: args).
Proof.
  intros Htag HN Hlen Hargs. unfold sendUSARTArgs, MAX_NUMBER_OF_ARGS.
  replace (N >? 12) with false by (symmetry; rewrite Z.gtb_ltb; apply Z.ltb_ge; lia).
  rewrite (uint16_small _ (header_word_range tag Htag)).
  rewrite (int16_small (N * 2)), (uint16_small (N * 2)), (int16_small (N * 2 + 4)) by lia.
  replace (Z.to_nat N) with (length args) by lia.
  rewrite <- (app_nil_r args) at 2.
  rewrite copy_args_words by exact Hargs.
  unfold sendUSARTBufferNoSizeCheck. simpl usart_write at 2. rewrite app_nil_r.
  replace (N * 2) with (2 * N) by lia.
  set (ws := Z.lor (Z.shiftl tag 8) SYNC_TOKEN :: 2 * N :: args).
  replace (Z.to_nat (2 * N + 4)) with (2 * length ws)%nat by (unfold ws; simpl length; lia).
  apply (usart_write_words ws stack 0).
Qed.

(** C7.  For [0 <= N <= 12], [sendUSARTArgs (tag, N, args...)] transmits the
    words [tag << 8 | SYNC_TOKEN], [2 * N] and the [N] arguments as they were
    passed, each word low byte first as it lies in memory, and nothing behind
    them: [2 * N + 4] bytes. *)
Theorem command_frame_layout stack tag N args :
  is_uint8 tag -> 0 <= N <= 12 -> Z.of_nat (length args) = N -> Forall is_uint16 args ->
  sendUSARTArgs stack tag N args
  = words_le (Z.lor (Z.shiftl tag 8) SYNC_TOKEN :: 2 * N :: args)
  /\ Z.of_nat (length (sendUSARTArgs stack tag N args)) = 2 * N + 4.
Proof.
  intros Htag HN Hlen Hargs.
  rewrite sendUSARTArgs_words by assumption.
  split; [reflexivity |]. rewrite length_words_le. simpl length. lia.
Qed.

(** C8, as amended.  For [0 <= N <= 12] and a data length
    [0 <= length <= 32767], [sendUSARTArgsAndByteBuffer (tag, N, args...,
    length, buffer)] transmits what [sendUSARTArgs (tag, N, args...)]
    transmits, then the words [DATAFIELD_TAG_BYTE << 8 | SYNC_TOKEN] and
    [length], then the [length] bytes of the buffer: [2 * N + 8] bytes and
    [length] data bytes. *)
Theorem data_block_layout stack ram tag N args len ptr :
  is_uint8 tag -> 0 <= N <= 12 -> Z.of_nat (length args) = N -> Forall is_uint16 args ->
  0 <= len <= 32767 -> is_uint16 ptr ->
  sendUSARTArgsAndByteBuffer stack ram tag N (args ++ [len; ptr])
  = sendUSARTArgs stack tag N args
    ++ words_le [Z.lor (Z.shiftl DATAFIELD_TAG_BYTE 8) SYNC_TOKEN; len]
    ++ bytes_at ram ptr len
  /\ sendUSARTArgs stack tag N args
     = words_le (Z.lor (Z.shiftl tag 8) SYNC_TOKEN :: 2 * N :: args)
  /\ Z.of_nat (length (sendUSARTArgsAndByteBuffer stack ram tag N (args ++ [len; ptr])))
     = 2 * N + 8 + len.
Proof.
  intros Htag HN Hlen Hargs Hl Hptr.
  assert (Hdata : is_uint8 DATAFIELD_TAG_BYTE) by (unfold is_uint8, DATAFIELD_TAG_BYTE; lia).
  assert (Hout : sendUSARTArgsAndByteBuffer stack ram tag N (args ++ [len; ptr])
                 = words_le ((Z.lor (Z.shiftl tag 8) SYNC_TOKEN :: 2 * N :: args)
                             ++ [Z.lor (Z.shiftl DATAFIELD_TAG_BYTE 8) SYNC_TOKEN; len])
                   ++ bytes_at ram ptr len).
  { unfold sendUSARTArgsAndByteBuffer, MAX_NUMBER_OF_ARGS.
    replace (N >? 12) with false by (symmetry; rewrite Z.gtb_ltb; apply Z.ltb_ge; lia).
    rewrite (uint16_small _ (header_word_range tag Htag)).
    rewrite (uint16_small _ (header_word_range _ Hdata)).
    rewrite (int16_small (N * 2)), (uint16_small (N * 2)), (int16_small (N * 2 + 8)) by lia.
    replace (Z.to_nat N) with (length args) by lia.
    rewrite copy_args_words by exact Hargs.
    cbn [va_arg]. unfold is_uint16 in Hptr.
    rewrite !uint16_int16, (uint16_small len), (uint16_small ptr), (int16_small len) by lia.
    unfold sendUSARTBufferNoSizeCheck.
    rewrite (usart_write_bytes_at ram ptr len) by lia. f_equal.
    set (ws := (Z.lor (Z.shiftl tag 8) SYNC_TOKEN :: 2 * N :: args)
               ++ [Z.lor (Z.shiftl DATAFIELD_TAG_BYTE 8) SYNC_TOKEN; len]).
    replace (Z.to_nat (N * 2 + 8)) with (2 * length ws)%nat
      by (unfold ws; rewrite length_app; simpl length; lia).
    rewrite <- (usart_write_words ws stack 0). f_equal.
    unfold ws. rewrite write_words_app. simpl length.
    replace (0 + 2 * Z.of_nat (S (S (length args)))) with (4 + 2 * Z.of_nat (length args)) by lia.
    replace (N * 2) with (2 * N) by lia. reflexivity. }
  rewrite Hout, sendUSARTArgs_words by assumption.
  split; [| split; [reflexivity |]].
  - unfold words_le. rewrite map_app, concat_app, <- app_assoc. reflexivity.
  - rewrite length_app, length_words_le, length_app. unfold bytes_at.
    rewrite length_map, length_seq. simpl length. lia.
Qed.

(** C10, as amended.  The guard lets every count up to 12 pass, negative ones
    too: the number of bytes transmitted is then the send length
    [aNumberOfArgs * 2 + 4] as the 16 bit [int] computation yields it, or
    none if that is not positive.  With [aNumberOfArgs = -1] the two bytes of
    the header word are transmitted.  With [-16384 <= aNumberOfArgs <= -2],
    where [2 * aNumberOfArgs] fits an [int], nothing is transmitted. *)
Theorem negative_argument_count stack tag N argp :
  is_uint8 tag ->
  (N <= 12 ->
   length (sendUSARTArgs stack tag N argp) = Z.to_nat (int16 (int16 (N * 2) + 4)))
  /\ (N = -1 -> sendUSARTArgs stack tag N argp = [SYNC_TOKEN; tag])
  /\ (-16384 <= N <= -2 -> sendUSARTArgs stack tag N argp = []).
Proof.
  intros Htag. split; [| split].
  - intros HN. unfold sendUSARTArgs, MAX_NUMBER_OF_ARGS.
    replace (N >? 12) with false by (symmetry; rewrite Z.gtb_ltb; apply Z.ltb_ge; lia).
    destruct (copy_args _ _ _ _) as ((m & p) & rest).
    unfold sendUSARTBufferNoSizeCheck. simpl usart_write at 2.
    rewrite app_nil_r. apply length_usart_write.
  - intros ->. unfold sendUSARTArgs, MAX_NUMBER_OF_ARGS.
    change (-1 >? 12) with false. cbv iota.
    change (Z.to_nat (-1)) with 0%nat. cbn [copy_args].
    change (int16 (int16 (-1 * 2) + 4)) with 2.
    unfold sendUSARTBufferNoSizeCheck. change (Z.to_nat 2) with 2%nat.
    simpl usart_write at 2. rewrite app_nil_r.
    rewrite (usart_write_ext _ (store16 stack 0 (uint16 (Z.lor (Z.shiftl tag 8) SYNC_TOKEN))) 2 0).
    + rewrite usart_write_store16, (uint16_small _ (header_word_range tag Htag)).
      apply le16_header_word. exact Htag.
    + intros a Ha. apply store16_other. change (Z.of_nat 2) with 2 in Ha. lia.
  - intros HN. unfold sendUSARTArgs, MAX_NUMBER_OF_ARGS.
    replace (N >? 12) with false by (symmetry; rewrite Z.gtb_ltb; apply Z.ltb_ge; lia).
    destruct (copy_args _ _ _ _) as ((m & p) & rest).
    rewrite (int16_small (N * 2)), (int16_small (N * 2 + 4)) by lia.
    unfold sendUSARTBufferNoSizeCheck.
    replace (Z.to_nat (N * 2 + 4)) with 0%nat by lia. reflexivity.
Qed.

End SenderTheory.

(** ** The other senders *)

Lemma le16_inj w w' : is_uint16 w -> is_uint16 w' -> le16 w = le16 w' -> w = w'.
Proof.
  unfold is_uint16, le16. intros Hw Hw' Heq. injection Heq as Hlo Hhi.
  rewrite (Z.mod_small (w / 256)) in Hhi by (split; [apply Z.div_pos | apply Z.div_lt_upper_bound]; lia).
  rewrite (Z.mod_small (w' / 256)) in Hhi by (split; [apply Z.div_pos | apply Z.div_lt_upper_bound]; lia).
  rewrite (Z.div_mod w 256), (Z.div_mod w' 256) by lia. congruence.
Qed.

Lemma words_le_inj ws : forall ws',
  Forall is_uint16 ws -> Forall is_uint16 ws' -> words_le ws = words_le ws' -> ws = ws'.
Proof.
  induction ws as [| w ws IH]; intros [| w' ws'] Hws Hws' Heq; try reflexivity;
    try discriminate Heq.
  inversion Hws as [| ? ? Hw Hrest]; inversion Hws' as [| ? ? Hw' Hrest']; subst.
  change (le16 w ++ words_le ws = le16 w' ++ words_le ws') in Heq.
  unfold le16 in Heq at 1 2. simpl in Heq. injection Heq as Hlo Hhi Htail.
  f_equal; [| apply IH; assumption].
  apply le16_inj; try assumption. unfold le16. congruence.
Qed.

Lemma bytes_at_usart_write ram p n : bytes_at ram p n = usart_write ram p (Z.to_nat n).
Proof.
  unfold bytes_at. generalize (Z.to_nat n) as k. intros k. revert p.
  induction k as [| k IH]; intros p; simpl; [reflexivity |].
  rewrite Z.add_0_r. f_equal. rewrite <- IH, <- seq_shift, map_map.
  apply map_ext. intros i. f_equal. lia.
Qed.

Section SenderExtras.
Context {hdr : Headers}.
Hypothesis sync_token_byte : 0 <= SYNC_TOKEN < 256.

(** What [sendUSARTArgsAndByteBuffer] transmits, for every 16 bit length. *)
Lemma sendUSARTArgsAndByteBuffer_words stack ram tag N args len ptr :
  is_uint8 tag -> 0 <= N <= 12 -> Z.of_nat (length args) = N -> Forall is_uint16 args ->
  is_uint16 len -> is_uint16 ptr ->
  sendUSARTArgsAndByteBuffer stack ram tag N (args ++ [len; ptr])
  = words_le ((Z.lor (Z.shiftl tag 8) SYNC_TOKEN :: 2 * N :: args)
              ++ [Z.lor (Z.shiftl DATAFIELD_TAG_BYTE 8) SYNC_TOKEN; len])
    ++ bytes_at ram ptr (int16 len).
Proof.
  intros Htag HN Hlen Hargs Hl Hptr.
  assert (Hdata : is_uint8 DATAFIELD_TAG_BYTE) by (unfold is_uint8, DATAFIELD_TAG_BYTE; lia).
  unfold sendUSARTArgsAndByteBuffer, MAX_NUMBER_OF_ARGS.
  replace (N >? 12) with false by (symmetry; rewrite Z.gtb_ltb; apply Z.ltb_ge; lia).
  rewrite (uint16_small _ (header_word_range sync_token_byte tag Htag)).
  rewrite (uint16_small _ (header_word_range sync_token_byte _ Hdata)).
  rewrite (int16_small (N * 2)), (uint16_small (N * 2)), (int16_small (N * 2 + 8)) by lia.
  replace (Z.to_nat N) with (length args) by lia.
  rewrite copy_args_words by exact Hargs.
  cbn [va_arg]. unfold is_uint16 in Hptr, Hl.
  rewrite !uint16_int16, (uint16_small len), (uint16_small ptr) by lia.
  unfold sendUSARTBufferNoSizeCheck. rewrite bytes_at_usart_write. f_equal.
  set (ws := (Z.lor (Z.shiftl tag 8) SYNC_TOKEN :: 2 * N :: args)
             ++ [Z.lor (Z.shiftl DATAFIELD_TAG_BYTE 8) SYNC_TOKEN; len]).
  replace (Z.to_nat (N * 2 + 8)) with (2 * length ws)%nat
    by (unfold ws; rewrite length_app; simpl length; lia).
  rewrite <- (usart_write_words ws stack 0). f_equal.
  unfold ws. rewrite write_words_app. simpl length.
  replace (0 + 2 * Z.of_nat (S (S (length args)))) with (4 + 2 * Z.of_nat (length args)) by lia.
  replace (N * 2) with (2 * N) by lia. reflexivity.
Qed.

(** X1.  [sendUSART5Args] transmits what [sendUSARTArgs] transmits for the
    same tag and the same five arguments: the header word, the length word
    10 and the five arguments, 14 bytes. *)
Theorem sendUSART5Args_as_sendUSARTArgs stack stack' tag aXStart aYStart aXEnd aYEnd aColor :
  is_uint8 tag -> Forall is_uint16 [aXStart; aYStart; aXEnd; aYEnd; aColor] ->
  sendUSART5Args stack tag aXStart aYStart aXEnd aYEnd aColor
  = sendUSARTArgs stack' tag 5 [aXStart; aYStart; aXEnd; aYEnd; aColor]
  /\ sendUSART5Args stack tag aXStart aYStart aXEnd aYEnd aColor
     = words_le [Z.lor (Z.shiftl tag 8) SYNC_TOKEN; 10; aXStart; aYStart; aXEnd; aYEnd; aColor].
Proof.
  intros Htag Hargs.
  assert (Hown : sendUSART5Args stack tag aXStart aYStart aXEnd aYEnd aColor
                 = words_le [Z.lor (Z.shiftl tag 8) SYNC_TOKEN; 10; aXStart; aYStart;
                             aXEnd; aYEnd; aColor]).
  { unfold sendUSART5Args.
    rewrite (uint16_small _ (header_word_range sync_token_byte tag Htag)).
    unfold sendUSARTBufferNoSizeCheck. simpl usart_write at 2. rewrite app_nil_r.
    apply (usart_write_words
             [Z.lor (Z.shiftl tag 8) SYNC_TOKEN; 10; aXStart; aYStart; aXEnd; aYEnd; aColor]
             stack 0). }
  split; [| exact Hown].
  rewrite Hown. symmetry.
  apply (sendUSARTArgs_words sync_token_byte stack' tag 5
           [aXStart; aYStart; aXEnd; aYEnd; aColor] Htag); [lia | reflexivity | exact Hargs].
Qed.

(** X2.  [sendUSART5ArgsAndByteBuffer] transmits what
    [sendUSARTArgsAndByteBuffer] transmits for the same tag, five arguments,
    length and buffer: nine words, 18 bytes, then the bytes of the buffer, as
    many as the length read as [int16_t] says, none from 32768 on. *)
Theorem sendUSART5ArgsAndByteBuffer_as_variadic stack stack' ram tag
    aXStart aYStart aXEnd aYEnd aColor aBuffer aBufferLength :
  is_uint8 tag -> Forall is_uint16 [aXStart; aYStart; aXEnd; aYEnd; aColor] ->
  is_uint16 aBuffer -> is_uint16 aBufferLength ->
  sendUSART5ArgsAndByteBuffer stack ram tag aXStart aYStart aXEnd aYEnd aColor
    aBuffer aBufferLength
  = sendUSARTArgsAndByteBuffer stack' ram tag 5
      ([aXStart; aYStart; aXEnd; aYEnd; aColor] ++ [aBufferLength; aBuffer])
  /\ sendUSART5ArgsAndByteBuffer stack ram tag aXStart aYStart aXEnd aYEnd aColor
       aBuffer aBufferLength
     = words_le [Z.lor (Z.shiftl tag 8) SYNC_TOKEN; 10; aXStart; aYStart; aXEnd; aYEnd;
                 aColor; Z.lor (Z.shiftl DATAFIELD_TAG_BYTE 8) SYNC_TOKEN; aBufferLength]
       ++ bytes_at ram aBuffer (int16 aBufferLength)
  /\ (32768 <= aBufferLength ->
      length (sendUSART5ArgsAndByteBuffer stack ram tag aXStart aYStart aXEnd aYEnd aColor
                aBuffer aBufferLength) = 18%nat).
Proof.
  intros Htag Hargs Hptr Hlen.
  assert (Hdata : is_uint8 DATAFIELD_TAG_BYTE) by (unfold is_uint8, DATAFIELD_TAG_BYTE; lia).
  set (ws := [Z.lor (Z.shiftl tag 8) SYNC_TOKEN; 10; aXStart; aYStart; aXEnd; aYEnd;
              aColor; Z.lor (Z.shiftl DATAFIELD_TAG_BYTE 8) SYNC_TOKEN; aBufferLength]).
  assert (Hown : sendUSART5ArgsAndByteBuffer stack ram tag aXStart aYStart aXEnd aYEnd
                   aColor aBuffer aBufferLength
                 = words_le ws ++ bytes_at ram aBuffer (int16 aBufferLength)).
  { unfold sendUSART5ArgsAndByteBuffer.
    rewrite (uint16_small _ (header_word_range sync_token_byte tag Htag)).
    rewrite (uint16_small _ (header_word_range sync_token_byte _ Hdata)).
    unfold sendUSARTBufferNoSizeCheck. rewrite bytes_at_usart_write.
    f_equal; apply (usart_write_words ws stack 0). }
  split; [| split; [exact Hown |]].
  - rewrite Hown. symmetry.
    apply (sendUSARTArgsAndByteBuffer_words stack' ram tag 5
             [aXStart; aYStart; aXEnd; aYEnd; aColor] aBufferLength aBuffer Htag);
      [lia | reflexivity | exact Hargs | exact Hlen | exact Hptr].
  - intros Hbig. rewrite Hown, length_app, length_words_le. unfold bytes_at.
    rewrite length_map, length_seq. unfold is_uint16 in Hlen.
    replace (int16 aBufferLength) with (aBufferLength - 65536)
      by (unfold int16; rewrite <- (Z.mod_add _ (-1) 65536), Z.mod_small; lia).
    simpl length. lia.
Qed.

(** X3.  [sendUSARTArgs] loses nothing: for counts from 0 to 12, two calls
    that transmit the same bytes had the same tag, the same count and the
    same arguments. *)
Theorem sendUSARTArgs_injective stack stack' tag tag' N N' args args' :
  is_uint8 tag -> is_uint8 tag' -> 0 <= N <= 12 -> 0 <= N' <= 12 ->
  Z.of_nat (length args) = N -> Z.of_nat (length args') = N' ->
  Forall is_uint16 args -> Forall is_uint16 args' ->
  sendUSARTArgs stack tag N args = sendUSARTArgs stack' tag' N' args' ->
  tag = tag' /\ N = N' /\ args = args'.
Proof.
  intros Htag Htag' HN HN' Hlen Hlen' Hargs Hargs' Heq.
  rewrite !(sendUSARTArgs_words sync_token_byte) in Heq by assumption.
  apply words_le_inj in Heq.
  - injection Heq as Hh Hn Ha. rewrite !(header_word sync_token_byte) in Hh by assumption.
    repeat split; [lia | lia | exact Ha].
  - constructor; [exact (header_word_range sync_token_byte tag Htag) |].
    constructor; [unfold is_uint16; lia | exact Hargs].
  - constructor; [exact (header_word_range sync_token_byte tag' Htag') |].
    constructor; [unfold is_uint16; lia | exact Hargs'].
Qed.

End SenderExtras.

(** X4.  [sendUSARTBufferNoSizeCheck] transmits the bytes of the parameter
    buffer and then those of the data buffer, each as far as its length
    says and none for a length that is not positive; it reads no memory
    outside these two ranges; and the bytes are those [USART3_send] transmits
    when called on each of them in turn. *)
Theorem sendUSARTBufferNoSizeCheck_bytes pmem p plen dmem d dlen :
  sendUSARTBufferNoSizeCheck pmem p plen dmem d dlen
  = bytes_at pmem p plen ++ bytes_at dmem d dlen
  /\ Z.of_nat (length (sendUSARTBufferNoSizeCheck pmem p plen dmem d dlen))
     = Z.max 0 plen + Z.max 0 dlen
  /\ (forall pmem' dmem',
        (forall a, p <= a < p + plen -> pmem' a = pmem a) ->
        (forall a, d <= a < d + dlen -> dmem' a = dmem a) ->
        sendUSARTBufferNoSizeCheck pmem' p plen dmem' d dlen
        = sendUSARTBufferNoSizeCheck pmem p plen dmem d dlen)
  /\ ((forall a, p <= a < p + plen -> is_uint8 (pmem a)) ->
      (forall a, d <= a < d + dlen -> is_uint8 (dmem a)) ->
      sendUSARTBufferNoSizeCheck pmem p plen dmem d dlen
      = concat (map USART3_send (bytes_at pmem p plen ++ bytes_at dmem d dlen))).
Proof.
  assert (Hsingle : forall (m : Mem) q n,
            (forall a, q <= a < q + n -> is_uint8 (m a)) ->
            concat (map USART3_send (bytes_at m q n)) = bytes_at m q n).
  { intros m q n Hm. rewrite bytes_at_usart_write.
    assert (Hk : forall a, q <= a < q + Z.of_nat (Z.to_nat n) -> is_uint8 (m a))
      by (intros a Ha; apply Hm; lia).
    clear Hm. revert Hk. generalize (Z.to_nat n) as k. intros k. revert q.
    induction k as [| k IH]; intros q Hm; [reflexivity |].
    simpl. unfold USART3_send at 1. simpl.
    rewrite uint8_small by (apply Hm; lia). f_equal.
    apply IH. intros a Ha. apply Hm. lia. }
  unfold sendUSARTBufferNoSizeCheck. rewrite <- !bytes_at_usart_write.
  split; [reflexivity |]. split; [| split].
  - rewrite length_app. unfold bytes_at. rewrite !length_map, !length_seq. lia.
  - intros pmem' dmem' Hp Hd. rewrite !bytes_at_usart_write. f_equal.
    + apply usart_write_ext. intros a Ha. apply Hp. lia.
    + apply usart_write_ext. intros a Ha. apply Hd. lia.
  - intros Hp Hd. rewrite map_app, concat_app, !Hsingle by assumption. reflexivity.
Qed.

(** ** More on the interrupt routine *)

Section ReceiverExtras.
Context {hdr : Headers}.
Hypothesis callback_size : 4 <= TOUCH_CALLBACK_DATA_SIZE <= 255.

(** X5.  The interrupt routine never changes [allowTouchInterrupts], and it
    changes an event slot in one situation only: in sync, with an event type,
    the index at the data size, and [SYNC_TOKEN] as the byte. *)
Theorem ISR_slots_only_on_completion s tByte s' :
  ISR s tByte = Some s' ->
  allowTouchInterrupts s' = allowTouchInterrupts s
  /\ (remoteTouchEvent s' <> remoteTouchEvent s
      \/ remoteTouchDownEvent s' <> remoteTouchDownEvent s ->
      sReceiveBufferOutOfSync s = false
      /\ sReceivedEventType s <> EVENT_TAG_NO_EVENT
      /\ sReceiveBufferIndex s = tDataSize (sReceivedEventType s)
      /\ tByte = SYNC_TOKEN).
Proof.
  unfold ISR, store_byte. intros Hstep.
  destruct (sReceiveBufferOutOfSync s) eqn:Hoos.
  { destruct (tByte =? SYNC_TOKEN); inversion Hstep; subst; simpl;
      (split; [reflexivity | intros [H | H]; contradiction]). }
  destruct (Z.eqb_spec (sReceivedEventType s) EVENT_TAG_NO_EVENT) as [Hty | Hty].
  { destruct (sReceiveBufferIndex s =? 1);
      [| destruct ((0 <=? sReceiveBufferIndex s)
                   && (sReceiveBufferIndex s <? RECEIVE_CALLBACK_DATA_SIZE))];
      inversion Hstep; subst; simpl;
      (split; [reflexivity | intros [H | H]; contradiction]). }
  destruct (Z.eqb_spec (sReceiveBufferIndex s) (tDataSize (sReceivedEventType s)))
    as [Hidx | Hidx].
  - destruct (Z.eqb_spec tByte SYNC_TOKEN) as [Hb | Hb].
    + split; [| intros _; auto].
      destruct (sReceivedEventType s =? EVENT_TAG_TOUCH_ACTION_DOWN); simpl in Hstep;
        destruct (allowTouchInterrupts s); inversion Hstep; reflexivity.
    + inversion Hstep; subst; simpl.
      split; [reflexivity | intros [H | H]; contradiction].
  - destruct ((0 <=? sReceiveBufferIndex s)
              && (sReceiveBufferIndex s <? RECEIVE_CALLBACK_DATA_SIZE));
      inversion Hstep; subst; simpl;
      (split; [reflexivity | intros [H | H]; contradiction]).
Qed.

Lemma deliver_allow s f : allowTouchInterrupts (deliver s f) = allowTouchInterrupts s.
Proof.
  unfold deliver.
  destruct (allowTouchInterrupts s) eqn:Ha, (destination (frame_tag f)); simpl; auto.
Qed.

(** X6.  A slot holds one event: of two well formed frames for the same slot,
    taken in one behind the other with [allowTouchInterrupts] false, the
    slot shows the type and the payload of the second.  The slot is not
    cleared in between: behind the payload of the second frame lie the bytes
    that were there, those of the first frame where it was longer. *)
Theorem second_frame_overwrites_first s f1 f2 :
  receiver_reset s -> buffer_ok s -> well_formed f1 -> well_formed f2 ->
  destination (frame_tag f1) = destination (frame_tag f2) ->
  allowTouchInterrupts s = false ->
  exists s', receive s (wire f1 ++ wire f2) = Some s'
    /\ EventType (deref s' (destination (frame_tag f2))) = frame_tag f2
    /\ ByteArray (deref s' (destination (frame_tag f2)))
       = frame_payload f2
         ++ drop (length (frame_payload f2))
              (frame_payload f1
               ++ drop (length (frame_payload f1))
                    (ByteArray (deref s (destination (frame_tag f2))))).
Proof.
  intros Hreset Hbuf Hwf1 Hwf2 Hdest Hallow.
  exists (deliver (deliver s f1) f2). split.
  - rewrite receive_app, (receive_frame callback_size s f1) by assumption.
    apply (receive_frame callback_size);
      [apply deliver_reset | apply deliver_buffer_ok; assumption | exact Hwf2].
  - rewrite deliver_event, deliver_allow, Hallow, <- Hdest, deliver_event, Hallow.
    split; reflexivity.
Qed.

(** X7.  A glitch costs one frame: after a frame with a wrong last byte, any
    bytes other than [SYNC_TOKEN] and then one [SYNC_TOKEN], the well formed
    frames that follow are all taken in, as they would be from the reset
    receiver; of the broken frame only the payload in the receive buffer is
    left. *)
Theorem glitch_costs_one_frame s f tByte garbage frames :
  receiver_reset s -> buffer_ok s -> well_formed f -> tByte <> SYNC_TOKEN ->
  Forall (fun b => b <> SYNC_TOKEN) garbage ->
  Forall well_formed frames ->
  receive s ((frame_length f :: frame_tag f :: frame_payload f ++ [tByte])
             ++ garbage ++ [SYNC_TOKEN] ++ concat (map wire frames))
  = Some (fold_left deliver frames
            (set_receiver
               (frame_payload f ++ drop (length (frame_payload f)) (sReceiveBuffer s))
               0 false EVENT_TAG_NO_EVENT s)).
Proof.
  intros Hreset Hbuf Hwf Hb Hg Hframes.
  change (frame_length f :: frame_tag f :: frame_payload f ++ [tByte])
    with ((frame_length f :: frame_tag f :: frame_payload f) ++ [tByte]).
  rewrite <- !app_assoc.
  rewrite receive_app, (receive_frame_body callback_size) by assumption.
  destruct Hwf as (Htag & Hlen).
  change ([tByte] ++ garbage ++ [SYNC_TOKEN] ++ concat (map wire frames))
    with (tByte :: (garbage ++ [SYNC_TOKEN] ++ concat (map wire frames))).
  cbn [receive]. rewrite ISR_glitch by (simpl; auto).
  rewrite receive_app, receive_out_of_sync by (simpl; auto).
  change ([SYNC_TOKEN] ++ concat (map wire frames))
    with (SYNC_TOKEN :: concat (map wire frames)).
  cbn [receive]. unfold ISR at 1. simpl. rewrite Z.eqb_refl.
  apply (receive_frames callback_size).
  - repeat split.
  - pose proof (tDataSize_bounds callback_size (frame_tag f)) as Hsize.
    unfold buffer_ok in *. simpl. rewrite length_app, length_drop. lia.
  - exact Hframes.
Qed.

End ReceiverExtras.

(** ** [serialEvent] *)

Section SerialEvent.
Context {hdr : Headers}.
Hypothesis callback_size : 4 <= TOUCH_CALLBACK_DATA_SIZE <= 255.

(** [serialEvent] entered in sync and with an event type. *)
Lemma serialEvent_typed s serial :
  sReceiveBufferOutOfSync s = false ->
  sReceivedEventType s <> EVENT_TAG_NO_EVENT ->
  serialEvent s serial
  = (if tDataSize (sReceivedEventType s) <? uint8 (Z.of_nat (length serial))
     then match Serial_readBytes (tDataSize (sReceivedEventType s)) s serial with
          | Some (s1, serial1) =>
              let (c, serial2) := Serial_read serial1 in
              if c =? SYNC_TOKEN then
                let ev := {| EventType := sReceivedEventType s1;
                             ByteArray := memcpy (ByteArray (remoteTouchEvent s1))
                                            (sReceiveBuffer s1)
                                            (tDataSize (sReceivedEventType s1)) |} in
                let s2 := assign PtrRemoteTouchEvent ev s1 in
                let s3 := set_receiver (sReceiveBuffer s2) (sReceiveBufferIndex s2)
                            (sReceiveBufferOutOfSync s2) EVENT_TAG_NO_EVENT s2 in
                Some (assign PtrRemoteTouchEvent (handleEvent (remoteTouchEvent s3)) s3,
                      serial2)
              else Some (set_receiver (sReceiveBuffer s1) (sReceiveBufferIndex s1)
                           true (sReceivedEventType s1) s1, serial2)
          | None => None
          end
     else Some (s, serial)).
Proof.
  intros Hoos Hty.
  assert (Hf : (sReceivedEventType s =? EVENT_TAG_NO_EVENT) = false)
    by (apply Z.eqb_neq; exact Hty).
  unfold serialEvent. rewrite Hoos, Hoos, Hf. cbv beta iota zeta. rewrite Hf.
  reflexivity.
Qed.

(** In sync and with both header bytes in the queue, [serialEvent] reads the
    header and goes on as a call that finds the event type set. *)
Lemma serialEvent_header s len tag serial :
  sReceiveBufferOutOfSync s = false ->
  sReceivedEventType s = EVENT_TAG_NO_EVENT ->
  tag <> EVENT_TAG_NO_EVENT ->
  Z.of_nat (length (len :: tag :: serial)) < 256 ->
  serialEvent s (len :: tag :: serial) = serialEvent (header_read s len tag) serial.
Proof.
  intros Hoos Hty Htag Hlen. pose proof (receive_size callback_size) as Hsize.
  assert (Htagb : (tag =? EVENT_TAG_NO_EVENT) = false) by (apply Z.eqb_neq; exact Htag).
  assert (Hlhs : serialEvent s (len :: tag :: serial)
                 = (if tDataSize tag <? uint8 (Z.of_nat (length serial))
                    then match Serial_readBytes (tDataSize tag) (header_read s len tag) serial with
                         | Some (s1, serial1) =>
                             let (c, serial2) := Serial_read serial1 in
                             if c =? SYNC_TOKEN then
                               let ev := {| EventType := sReceivedEventType s1;
                                            ByteArray := memcpy (ByteArray (remoteTouchEvent s1))
                                                           (sReceiveBuffer s1)
                                                           (tDataSize (sReceivedEventType s1)) |} in
                               let s2 := assign PtrRemoteTouchEvent ev s1 in
                               let s3 := set_receiver (sReceiveBuffer s2) (sReceiveBufferIndex s2)
                                           (sReceiveBufferOutOfSync s2) EVENT_TAG_NO_EVENT s2 in
                               Some (assign PtrRemoteTouchEvent
                                       (handleEvent (remoteTouchEvent s3)) s3, serial2)
                             else Some (set_receiver (sReceiveBuffer s1) (sReceiveBufferIndex s1)
                                          true (sReceivedEventType s1) s1, serial2)
                         | None => None
                         end
                    else Some (header_read s len tag, serial))).
  { unfold serialEvent. rewrite Hoos, Hoos, Hty, Z.eqb_refl.
    rewrite (uint8_small (Z.of_nat (length (len :: tag :: serial)))) by lia.
    replace (2 <=? Z.of_nat (length (len :: tag :: serial))) with true
      by (symmetry; apply Z.leb_le; simpl length; lia).
    unfold Serial_readBytes at 1.
    replace (2 <=? RECEIVE_CALLBACK_DATA_SIZE) with true by (symmetry; apply Z.leb_le; lia).
    change (memcpy (sReceiveBuffer s) (len :: tag :: serial) 2)
      with (len :: tag :: drop 2 (sReceiveBuffer s)).
    change (drop (Z.to_nat 2) (len :: tag :: serial)) with serial.
    cbn [set_receiver sReceiveBuffer sReceiveBufferIndex sReceiveBufferOutOfSync
         sReceivedEventType nth].
    rewrite Htagb, Hoos.
    replace (uint8 (Z.of_nat (length (len :: tag :: serial)) - 2))
      with (uint8 (Z.of_nat (length serial)))
      by (f_equal; simpl length; lia).
    reflexivity. }
  rewrite Hlhs, (serialEvent_typed (header_read s len tag)) by (simpl; auto).
  reflexivity.
Qed.

(** With an event type, [serialEvent] waits until the queue holds more bytes
    than the payload has. *)
Lemma serialEvent_wait s serial :
  sReceiveBufferOutOfSync s = false ->
  sReceivedEventType s <> EVENT_TAG_NO_EVENT ->
  Z.of_nat (length serial) <= tDataSize (sReceivedEventType s) ->
  serialEvent s serial = Some (s, serial).
Proof.
  intros Hoos Hty Hlen.
  pose proof (tDataSize_bounds callback_size (sReceivedEventType s)) as Hb.
  pose proof (receive_size callback_size) as Hsize.
  rewrite serialEvent_typed by assumption.
  rewrite uint8_small by lia.
  replace (tDataSize (sReceivedEventType s) <? Z.of_nat (length serial)) with false
    by (symmetry; apply Z.ltb_ge; exact Hlen).
  reflexivity.
Qed.

(** With an event type and payload and one more byte in the queue,
    [serialEvent] reads the payload and [SYNC_TOKEN] and hands the event to
    [handleEvent]. *)
Lemma serialEvent_data s P rest :
  sReceiveBufferOutOfSync s = false ->
  sReceivedEventType s <> EVENT_TAG_NO_EVENT ->
  Z.of_nat (length P) = tDataSize (sReceivedEventType s) ->
  Z.of_nat (length (P ++ SYNC_TOKEN :: rest)) < 256 ->
  serialEvent s (P ++ SYNC_TOKEN :: rest)
  = Some (assign PtrRemoteTouchEvent
            (handleEvent {| EventType := sReceivedEventType s;
                            ByteArray := P ++ drop (length P) (ByteArray (remoteTouchEvent s)) |})
            (set_receiver (P ++ drop (length P) (sReceiveBuffer s)) (sReceiveBufferIndex s)
               false EVENT_TAG_NO_EVENT s),
          rest).
Proof.
  intros Hoos Hty HP Hlen.
  pose proof (tDataSize_bounds callback_size (sReceivedEventType s)) as Hb.
  rewrite serialEvent_typed by assumption.
  rewrite uint8_small by lia.
  replace (tDataSize (sReceivedEventType s) <? Z.of_nat (length (P ++ SYNC_TOKEN :: rest)))
    with true by (symmetry; apply Z.ltb_lt; rewrite length_app; simpl length; lia).
  unfold Serial_readBytes.
  replace (tDataSize (sReceivedEventType s) <=? RECEIVE_CALLBACK_DATA_SIZE) with true
    by (symmetry; apply Z.leb_le; lia).
  unfold memcpy. rewrite <- HP, Nat2Z.id, take_app_length, drop_app_length.
  cbn [Serial_read set_receiver assign sReceiveBuffer sReceiveBufferIndex
       sReceiveBufferOutOfSync sReceivedEventType remoteTouchEvent remoteTouchDownEvent
       allowTouchInterrupts].
  rewrite Z.eqb_refl, <- HP, Nat2Z.id, take_app_length, Hoos. reflexivity.
Qed.

Lemma drop_header (n : nat) (len tag : Z) (buf : list Z) :
  (2 <= n)%nat -> drop n (len :: tag :: drop 2 buf) = drop n buf.
Proof.
  intros Hn. destruct n as [| [| n]]; try lia.
  simpl. rewrite drop_drop. f_equal.
Qed.

(** A whole frame in the queue. *)
Lemma serialEvent_frame s f rest :
  sReceiveBufferOutOfSync s = false ->
  sReceivedEventType s = EVENT_TAG_NO_EVENT ->
  well_formed f ->
  Z.of_nat (length (wire f ++ rest)) < 256 ->
  serialEvent s (wire f ++ rest)
  = Some (assign PtrRemoteTouchEvent (handleEvent (event_of f (remoteTouchEvent s)))
            (set_receiver
               (frame_payload f ++ drop (length (frame_payload f)) (sReceiveBuffer s))
               (sReceiveBufferIndex s) false EVENT_TAG_NO_EVENT s),
          rest).
Proof.
  intros Hoos Hty (Htag & HP) Hlen.
  pose proof (tDataSize_bounds callback_size (frame_tag f)) as Hb.
  unfold wire in *.
  change ((frame_length f :: frame_tag f :: frame_payload f ++ [SYNC_TOKEN]) ++ rest)
    with (frame_length f :: frame_tag f :: (frame_payload f ++ [SYNC_TOKEN]) ++ rest) in *.
  rewrite <- app_assoc in *. change ([SYNC_TOKEN] ++ rest) with (SYNC_TOKEN :: rest) in *.
  rewrite serialEvent_header by assumption.
  rewrite serialEvent_data; try (simpl; auto; fail).
  - unfold header_read, event_of. simpl. rewrite drop_header by lia. reflexivity.
  - simpl length in Hlen. lia.
Qed.

(** X8.  In sync, with no event type yet and a whole well formed frame at the
    head of the queue, one call of [serialEvent] takes exactly the bytes of
    the frame off the queue, writes the event to [remoteTouchEvent], whatever
    the tag, a touch down too, and hands it to [handleEvent], whatever
    [allowTouchInterrupts] says.  [remoteTouchDownEvent] and the buffer index
    stay as they are. *)
Theorem serialEvent_takes_frame s f rest :
  sReceiveBufferOutOfSync s = false ->
  sReceivedEventType s = EVENT_TAG_NO_EVENT ->
  well_formed f ->
  Z.of_nat (length (wire f ++ rest)) < 256 ->
  exists s', serialEvent s (wire f ++ rest) = Some (s', rest)
    /\ remoteTouchEvent s' = handleEvent (event_of f (remoteTouchEvent s))
    /\ remoteTouchDownEvent s' = remoteTouchDownEvent s
    /\ sReceiveBuffer s'
       = frame_payload f ++ drop (length (frame_payload f)) (sReceiveBuffer s)
    /\ sReceiveBufferIndex s' = sReceiveBufferIndex s
    /\ sReceiveBufferOutOfSync s' = false
    /\ sReceivedEventType s' = EVENT_TAG_NO_EVENT.
Proof.
  intros Hoos Hty Hwf Hlen. eexists. split; [apply serialEvent_frame; assumption |].
  simpl. repeat split.
Qed.

(** X9.  The two receivers agree: for a well formed frame that is not a touch
    down, with [allowTouchInterrupts] set, [serialEvent] on the frame in the
    queue and the interrupt routine on the bytes of the frame one by one
    leave the same state. *)
Theorem serialEvent_agrees_with_ISR s f :
  receiver_reset s -> buffer_ok s -> well_formed f ->
  allowTouchInterrupts s = true ->
  frame_tag f <> EVENT_TAG_TOUCH_ACTION_DOWN ->
  Z.of_nat (length (wire f)) < 256 ->
  exists s', serialEvent s (wire f) = Some (s', [])
    /\ receive s (wire f) = Some s'.
Proof.
  intros Hreset Hbuf Hwf Hallow Hdown Hlen.
  exists (deliver s f). split; [| apply (receive_frame callback_size); assumption].
  destruct Hreset as (Hoos & Hty & Hidx).
  rewrite <- (app_nil_r (wire f)), serialEvent_frame
    by (try assumption; rewrite app_nil_r; assumption).
  unfold deliver, destination.
  replace (frame_tag f =? EVENT_TAG_TOUCH_ACTION_DOWN) with false
    by (symmetry; apply Z.eqb_neq; exact Hdown).
  rewrite Hallow, Hidx. reflexivity.
Qed.

(** X10.  [serialEvent] takes a frame that arrives in pieces as it takes it
    in one piece.  With fewer than two bytes in the queue nothing is read.
    With the header and no more than the payload a call reads the two header
    bytes and leaves the rest in the queue; a later call that finds the
    payload and the following byte ends where one call on the whole frame
    ends. *)
Theorem serialEvent_in_pieces s f part more rest :
  sReceiveBufferOutOfSync s = false ->
  sReceivedEventType s = EVENT_TAG_NO_EVENT ->
  well_formed f ->
  frame_payload f ++ [SYNC_TOKEN] = part ++ more ->
  Z.of_nat (length part) <= tDataSize (frame_tag f) ->
  Z.of_nat (length (wire f ++ rest)) < 256 ->
  (forall serial, (length serial < 2)%nat -> serialEvent s serial = Some (s, serial))
  /\ serialEvent s (frame_length f :: frame_tag f :: part)
     = Some (header_read s (frame_length f) (frame_tag f), part)
  /\ serialEvent (header_read s (frame_length f) (frame_tag f)) (part ++ more ++ rest)
     = serialEvent s (wire f ++ rest)
  /\ exists s', serialEvent s (wire f ++ rest) = Some (s', rest).
Proof.
  intros Hoos Hty Hwf Hsplit Hpart Hlen.
  pose proof (tDataSize_bounds callback_size (frame_tag f)) as Hb.
  assert (Hwire : wire f ++ rest
                  = frame_length f :: frame_tag f :: part ++ more ++ rest).
  { unfold wire. simpl. rewrite Hsplit, <- app_assoc. reflexivity. }
  destruct Hwf as (Htag & HP).
  split; [| split; [| split]].
  - intros serial Hshort. unfold serialEvent. rewrite Hoos, Hoos, Hty, Z.eqb_refl.
    rewrite uint8_small by lia.
    replace (2 <=? Z.of_nat (length serial)) with false by (symmetry; apply Z.leb_gt; lia).
    rewrite Hty, Z.eqb_refl. reflexivity.
  - rewrite serialEvent_header; try assumption.
    + apply serialEvent_wait; simpl; auto.
    + rewrite Hwire in Hlen. simpl length in *. rewrite !length_app in Hlen. lia.
  - rewrite Hwire. symmetry. apply serialEvent_header; try assumption.
    rewrite <- Hwire. exact Hlen.
  - eexists. apply serialEvent_frame; try assumption. split; assumption.
Qed.

Lemma serialEvent_resync_garbage garbage : forall s,
  Forall (fun b => b <> SYNC_TOKEN) garbage ->
  (serialEvent_resync s garbage = (s, []))
  /\ forall serial,
       serialEvent_resync s (garbage ++ SYNC_TOKEN :: serial)
       = (set_receiver (sReceiveBuffer s) (sReceiveBufferIndex s) false EVENT_TAG_NO_EVENT s,
          serial).
Proof.
  induction garbage as [| b garbage IH]; intros s Hg.
  - split; [reflexivity |]. intros serial. simpl. rewrite Z.eqb_refl. reflexivity.
  - inversion Hg as [| ? ? Hb Hrest]; subst.
    destruct (IH s Hrest) as (IH1 & IH2).
    simpl. replace (b =? SYNC_TOKEN) with false by (symmetry; apply Z.eqb_neq; exact Hb).
    split; [exact IH1 | exact IH2].
Qed.

(** X11.  Out of sync, [serialEvent] reads and drops the bytes of the queue
    up to the first [SYNC_TOKEN].  Without one the queue is emptied and
    nothing else changes.  With one the receiver is in sync again, with no
    event type, and the same call goes on with the bytes behind it as a call
    entered in sync. *)
Theorem serialEvent_out_of_sync s garbage serial :
  sReceiveBufferOutOfSync s = true ->
  Forall (fun b => b <> SYNC_TOKEN) garbage ->
  serialEvent s garbage = Some (s, [])
  /\ serialEvent s (garbage ++ SYNC_TOKEN :: serial)
     = serialEvent
         (set_receiver (sReceiveBuffer s) (sReceiveBufferIndex s) false EVENT_TAG_NO_EVENT s)
         serial.
Proof.
  intros Hoos Hg.
  destruct (serialEvent_resync_garbage garbage s Hg) as (Hnone & Hsync).
  split.
  - unfold serialEvent. rewrite Hoos, Hnone, Hoos. reflexivity.
  - unfold serialEvent at 1. rewrite Hoos, Hsync.
    unfold serialEvent. simpl. reflexivity.
Qed.

Lemma serialEvent_resync_keeps serial : forall s,
  remoteTouchDownEvent (serialEvent_resync s serial).1 = remoteTouchDownEvent s
  /\ sReceiveBufferIndex (serialEvent_resync s serial).1 = sReceiveBufferIndex s
  /\ allowTouchInterrupts (serialEvent_resync s serial).1 = allowTouchInterrupts s
  /\ (serialEvent_resync s serial).2 `suffix_of` serial.
Proof.
  induction serial as [| b serial IH]; intros s; simpl.
  - repeat split; reflexivity.
  - destruct (b =? SYNC_TOKEN); simpl.
    + repeat split; try reflexivity. apply suffix_cons_r. reflexivity.
    + destruct (IH s) as (H1 & H2 & H3 & H4).
      repeat split; try assumption. apply suffix_cons_r. exact H4.
Qed.

Lemma Serial_read_suffix serial : (Serial_read serial).2 `suffix_of` serial.
Proof. destruct serial; simpl; [reflexivity | apply suffix_cons_r; reflexivity]. Qed.

Lemma serialEvent_in_sync_keeps s serial s' serial' :
  sReceiveBufferOutOfSync s = false ->
  serialEvent s serial = Some (s', serial') ->
  remoteTouchDownEvent s' = remoteTouchDownEvent s
  /\ sReceiveBufferIndex s' = sReceiveBufferIndex s
  /\ allowTouchInterrupts s' = allowTouchInterrupts s
  /\ serial' `suffix_of` serial.
Proof.
  intros Hoos Hcall.
  (* the data phase, entered with the event type set *)
  assert (Hdata : forall t q t' q',
             sReceiveBufferOutOfSync t = false ->
             sReceivedEventType t <> EVENT_TAG_NO_EVENT ->
             serialEvent t q = Some (t', q') ->
             remoteTouchDownEvent t' = remoteTouchDownEvent t
             /\ sReceiveBufferIndex t' = sReceiveBufferIndex t
             /\ allowTouchInterrupts t' = allowTouchInterrupts t
             /\ q' `suffix_of` q).
  { intros t q t' q' Ht Hty Hrun. rewrite serialEvent_typed in Hrun by assumption.
    destruct (tDataSize (sReceivedEventType t) <? uint8 (Z.of_nat (length q)));
      [| inversion Hrun; subst; repeat split; reflexivity].
    unfold Serial_readBytes in Hrun.
    destruct (tDataSize (sReceivedEventType t) <=? RECEIVE_CALLBACK_DATA_SIZE);
      [| discriminate Hrun].
    pose proof (Serial_read_suffix (drop (Z.to_nat (tDataSize (sReceivedEventType t))) q))
      as Hsuf.
    destruct (Serial_read (drop (Z.to_nat (tDataSize (sReceivedEventType t))) q))
      as (c & q2). simpl in Hsuf.
    assert (Hq : q2 `suffix_of` q) by (etrans; [exact Hsuf | apply suffix_drop]).
    destruct (c =? SYNC_TOKEN); inversion Hrun; subst; simpl; repeat split; assumption. }
  destruct (Z.eqb_spec (sReceivedEventType s) EVENT_TAG_NO_EVENT) as [Hty | Hty];
    [| apply (Hdata s serial s' serial' Hoos Hty Hcall)].
  destruct serial as [| len [| tag serial]].
  - unfold serialEvent in Hcall. rewrite Hoos, Hoos, Hty, Z.eqb_refl in Hcall.
    simpl in Hcall. rewrite Hty, Z.eqb_refl in Hcall.
    inversion Hcall; subst. repeat split; reflexivity.
  - unfold serialEvent in Hcall. rewrite Hoos, Hoos, Hty, Z.eqb_refl in Hcall.
    simpl in Hcall. rewrite Hty, Z.eqb_refl in Hcall.
    inversion Hcall; subst. repeat split; reflexivity.
  - unfold serialEvent in Hcall. rewrite Hoos, Hoos, Hty, Z.eqb_refl in Hcall.
    destruct (2 <=? uint8 (Z.of_nat (length (len :: tag :: serial)))).
    + unfold Serial_readBytes at 1 in Hcall.
      destruct (2 <=? RECEIVE_CALLBACK_DATA_SIZE); [| discriminate Hcall].
      change (memcpy (sReceiveBuffer s) (len :: tag :: serial) 2)
        with (len :: tag :: drop 2 (sReceiveBuffer s)) in Hcall.
      change (drop (Z.to_nat 2) (len :: tag :: serial)) with serial in Hcall.
      cbn [set_receiver sReceiveBuffer sReceiveBufferIndex sReceiveBufferOutOfSync
           sReceivedEventType nth] in Hcall.
      destruct (Z.eqb_spec tag EVENT_TAG_NO_EVENT) as [Htag | Htag].
      * inversion Hcall; subst. simpl. repeat split; try reflexivity.
        do 2 apply suffix_cons_r. reflexivity.
      * rewrite Hoos in Hcall.
        destruct (tDataSize tag <? uint8 (uint8 (Z.of_nat (length (len :: tag :: serial))) - 2)).
        -- unfold Serial_readBytes in Hcall.
           cbn [set_receiver sReceiveBuffer sReceiveBufferIndex sReceiveBufferOutOfSync
                sReceivedEventType] in Hcall.
           destruct (tDataSize tag <=? RECEIVE_CALLBACK_DATA_SIZE); [| discriminate Hcall].
           pose proof (Serial_read_suffix (drop (Z.to_nat (tDataSize tag)) serial)) as Hsuf.
           destruct (Serial_read (drop (Z.to_nat (tDataSize tag)) serial)) as (c & q2).
           simpl in Hsuf.
           assert (Hq : q2 `suffix_of` len :: tag :: serial).
           { do 2 apply suffix_cons_r. etrans; [exact Hsuf | apply suffix_drop]. }
           destruct (c =? SYNC_TOKEN); inversion Hcall; subst; simpl;
             repeat split; assumption.
        -- inversion Hcall; subst. simpl. repeat split; try reflexivity.
           do 2 apply suffix_cons_r. reflexivity.
    + rewrite Hty, Z.eqb_refl in Hcall. inversion Hcall; subst.
      repeat split; reflexivity.
Qed.

(** X12.  Whatever the state and the queue, [serialEvent] leaves
    [remoteTouchDownEvent], the buffer index and [allowTouchInterrupts] as
    they are, and what it leaves of the queue is an end piece of it: bytes
    are taken from the front only, none is put back or reordered. *)
Theorem serialEvent_keeps s serial s' serial' :
  serialEvent s serial = Some (s', serial') ->
  remoteTouchDownEvent s' = remoteTouchDownEvent s
  /\ sReceiveBufferIndex s' = sReceiveBufferIndex s
  /\ allowTouchInterrupts s' = allowTouchInterrupts s
  /\ exists taken, serial = taken ++ serial'.
Proof.
  intros Hcall.
  assert (Hall : remoteTouchDownEvent s' = remoteTouchDownEvent s
                 /\ sReceiveBufferIndex s' = sReceiveBufferIndex s
                 /\ allowTouchInterrupts s' = allowTouchInterrupts s
                 /\ serial' `suffix_of` serial).
  { destruct (sReceiveBufferOutOfSync s) eqn:Hoos;
      [| apply serialEvent_in_sync_keeps; assumption].
    destruct (serialEvent_resync_keeps serial s) as (H1 & H2 & H3 & H4).
    destruct (serialEvent_resync s serial) as (s1 & q1) eqn:Hres. simpl in *.
    destruct (sReceiveBufferOutOfSync s1) eqn:Hoos1.
    - unfold serialEvent in Hcall. rewrite Hoos, Hres, Hoos1 in Hcall.
      inversion Hcall; subst. repeat split; assumption.
    - assert (Hcont : serialEvent s serial = serialEvent s1 q1).
      { unfold serialEvent at 1. rewrite Hoos, Hres. cbv beta iota zeta.
        unfold serialEvent. rewrite !Hoos1. reflexivity. }
      rewrite Hcont in Hcall.
      destruct (serialEvent_in_sync_keeps s1 q1 s' serial' Hoos1 Hcall)
        as (K1 & K2 & K3 & K4).
      repeat split; try congruence. etrans; eassumption. }
  destruct Hall as (H1 & H2 & H3 & (taken & H4)).
  repeat split; try assumption. exists taken. exact H4.
Qed.

(** X16.  [serialEvent] drops a frame whose last byte is not [SYNC_TOKEN]:
    header, payload and that byte are taken off the queue, no slot is
    written, [handleEvent] is not called, and the receiver is left out of
    sync, the event type still that of the frame. *)
Theorem serialEvent_drops_broken_frame s f tByte rest :
  sReceiveBufferOutOfSync s = false ->
  sReceivedEventType s = EVENT_TAG_NO_EVENT ->
  well_formed f -> tByte <> SYNC_TOKEN ->
  Z.of_nat (length (frame_length f :: frame_tag f :: frame_payload f ++ tByte :: rest)) < 256 ->
  serialEvent s (frame_length f :: frame_tag f :: frame_payload f ++ tByte :: rest)
  = Some (set_receiver
            (frame_payload f ++ drop (length (frame_payload f)) (sReceiveBuffer s))
            (sReceiveBufferIndex s) true (frame_tag f) s,
          rest).
Proof.
  intros Hoos Hty (Htag & HP) Hb Hlen.
  pose proof (tDataSize_bounds callback_size (frame_tag f)) as Hsize.
  rewrite serialEvent_header by assumption.
  rewrite serialEvent_typed by (simpl; auto).
  cbn [header_read set_receiver sReceivedEventType].
  simpl length in Hlen. rewrite length_app in *. simpl length in Hlen.
  rewrite uint8_small by (simpl length; lia).
  replace (tDataSize (frame_tag f) <? Z.of_nat (length (frame_payload f) + length (tByte :: rest)))
    with true by (symmetry; apply Z.ltb_lt; simpl length; lia).
  unfold Serial_readBytes.
  replace (tDataSize (frame_tag f) <=? RECEIVE_CALLBACK_DATA_SIZE) with true
    by (symmetry; apply Z.leb_le; lia).
  unfold memcpy. rewrite <- HP, Nat2Z.id, take_app_length, drop_app_length.
  cbn [Serial_read set_receiver sReceiveBuffer sReceiveBufferIndex sReceiveBufferOutOfSync
       sReceivedEventType].
  replace (tByte =? SYNC_TOKEN) with false by (symmetry; apply Z.eqb_neq; exact Hb).
  unfold header_read. simpl. rewrite drop_header by lia. reflexivity.
Qed.

End SerialEvent.

(** ** [initSimpleSerial] *)

Section Init.
Context {hdr : Headers} {io : AvrIo}.

(** X13.  [initSimpleSerial] empties both event slots, their payload bytes
    staying, and does not reset the receiver: buffer, index, out-of-sync flag
    and event type, and [allowTouchInterrupts], are as before, so a receiver
    that is out of sync or within a frame stays so, and a state that was
    reachable is reachable after the call. *)
Theorem initSimpleSerial_keeps_receiver aBaudRate aUsePairedPin s :
  EventType (remoteTouchEvent (initSimpleSerial aBaudRate aUsePairedPin s).2)
  = EVENT_TAG_NO_EVENT
  /\ EventType (remoteTouchDownEvent (initSimpleSerial aBaudRate aUsePairedPin s).2)
     = EVENT_TAG_NO_EVENT
  /\ ByteArray (remoteTouchEvent (initSimpleSerial aBaudRate aUsePairedPin s).2)
     = ByteArray (remoteTouchEvent s)
  /\ ByteArray (remoteTouchDownEvent (initSimpleSerial aBaudRate aUsePairedPin s).2)
     = ByteArray (remoteTouchDownEvent s)
  /\ same_receiver s (initSimpleSerial aBaudRate aUsePairedPin s).2
  /\ allowTouchInterrupts (initSimpleSerial aBaudRate aUsePairedPin s).2
     = allowTouchInterrupts s
  /\ (reachable s -> reachable (initSimpleSerial aBaudRate aUsePairedPin s).2).
Proof.
  assert (Hsame : same_receiver s (initSimpleSerial aBaudRate aUsePairedPin s).2)
    by (repeat split).
  repeat split. intros Hs. eapply reach_main; [exact Hs | exact Hsame].
Qed.


End Init.

(** ** Chart.cpp *)

(** X15.  With a scale factor of 0 [adjustIntWithScaleFactor] returns the
    value.  For a factor [k] above 1: scaling by [-k], which multiplies, and
    then by [k], which divides, returns the value, as long as the product
    fits the 32 bit [int]; the other way round the value comes back less its
    remainder by [k], as the division rounds towards zero. *)
Theorem adjustIntWithScaleFactor_back v k :
  1 < k -> k <= 2147483647 ->
  -2147483648 <= v * k <= 2147483647 ->
  adjustIntWithScaleFactor v 0 = v
  /\ adjustIntWithScaleFactor (adjustIntWithScaleFactor v (- k)) k = v
  /\ adjustIntWithScaleFactor (adjustIntWithScaleFactor v k) (- k) = v - Z.rem v k.
Proof.
  intros Hk Hkmax Hprod.
  assert (Hneg : forall x, -2147483648 <= x * k <= 2147483647 ->
                           adjustIntWithScaleFactor x (- k) = x * k).
  { intros x Hx. unfold adjustIntWithScaleFactor.
    destruct (Z.eqb_spec (- k) 0); [lia |].
    destruct (Z.gtb_spec (- k) 1); [lia |].
    destruct (Z.eqb_spec (- k) 1); [lia |].
    destruct (Z.eqb_spec (- k) (-1)); [lia |].
    destruct (Z.ltb_spec (- k) (-1)); [| lia].
    rewrite Z.opp_involutive. unfold int32.
    rewrite (Z.mod_small (k + 2147483648)) by lia.
    replace (k + 2147483648 - 2147483648) with k by lia.
    rewrite Z.mod_small by lia. lia. }
  assert (Hpos : forall x, adjustIntWithScaleFactor x k = Z.quot x k).
  { intros x. unfold adjustIntWithScaleFactor.
    destruct (Z.eqb_spec k 0); [lia |].
    destruct (Z.gtb_spec k 1); [reflexivity | lia]. }
  split; [reflexivity |]. split.
  - rewrite Hneg, Hpos by exact Hprod. apply Z.quot_mul. lia.
  - rewrite Hpos. pose proof (Z.quot_rem' v k) as Hqr.
    pose proof (Z.rem_bound_abs v k ltac:(lia)) as Hrem.
    assert (Hv : Z.abs v <= Z.abs (v * k)) by (rewrite Z.abs_mul; nia).
    rewrite Hneg; [lia |].
    destruct (Z.le_ge_cases 0 v) as [Hv0 | Hv0].
    + pose proof (Z.mul_quot_le v k Hv0 ltac:(lia)). nia.
    + pose proof (Z.mul_quot_ge v k Hv0 ltac:(lia)). nia.
Qed.

(** * The statements at sample inputs *)

#[local] Existing Instance sample_headers.

(** The model run on sample streams. *)

Example touch_frame_taken_in :
  receive (sample_state false) [6; 0x01; 10; 20; 30; 40; 0xA5]
  = Some {| sReceiveBuffer := [10; 20; 30; 40; 0; 0; 0; 0; 0; 0; 0; 0];
            sReceiveBufferIndex := 0;
            sReceiveBufferOutOfSync := false;
            sReceivedEventType := 0xFF;
            allowTouchInterrupts := false;
            remoteTouchEvent :=
              {| EventType := 0x01;
                 ByteArray := [10; 20; 30; 40; 0; 0; 0; 0; 0; 0; 0; 0] |};
            remoteTouchDownEvent := empty_event |}.
Proof. reflexivity. Qed.

Example touch_down_frame_goes_to_down_slot :
  receive (sample_state false) [6; 0x00; 10; 20; 30; 40; 0xA5]
  = Some {| sReceiveBuffer := [10; 20; 30; 40; 0; 0; 0; 0; 0; 0; 0; 0];
            sReceiveBufferIndex := 0;
            sReceiveBufferOutOfSync := false;
            sReceivedEventType := 0xFF;
            allowTouchInterrupts := false;
            remoteTouchEvent := empty_event;
            remoteTouchDownEvent :=
              {| EventType := 0x00;
                 ByteArray := [10; 20; 30; 40; 0; 0; 0; 0; 0; 0; 0; 0] |} |}.
Proof. reflexivity. Qed.

Example glitch_then_resync :
  receive (sample_state false) [6; 0x01; 10; 20; 30; 40; 0x00; 9; 9; 0xA5]
  = Some {| sReceiveBuffer := [10; 20; 30; 40; 0; 0; 0; 0; 0; 0; 0; 0];
            sReceiveBufferIndex := 0;
            sReceiveBufferOutOfSync := false;
            sReceivedEventType := 0xFF;
            allowTouchInterrupts := false;
            remoteTouchEvent := empty_event;
            remoteTouchDownEvent := empty_event |}.
Proof. reflexivity. Qed.

Example three_arguments_sent :
  sendUSARTArgs sample_stack 0x10 3 [1; 258; 65535]
  = [0xA5; 0x10; 6; 0; 1; 0; 2; 1; 255; 255].
Proof. reflexivity. Qed.

Example arguments_and_buffer_sent :
  sendUSARTArgsAndByteBuffer sample_stack sample_ram 0x10 2 [1; 258; 3; 1000]
  = [0xA5; 0x10; 4; 0; 1; 0; 2; 1; 0xA5; 0x01; 3; 0; 232; 233; 234].
Proof. reflexivity. Qed.

Lemma sample_callback_size : 4 <= TOUCH_CALLBACK_DATA_SIZE <= 255.
Proof. simpl. lia. Defined.

Lemma sample_sync_token_byte : 0 <= SYNC_TOKEN < 256.
Proof. simpl. lia. Defined.

Lemma sample_state_reset allow : receiver_reset (sample_state allow).
Proof. repeat split. Defined.

Lemma sample_state_buffer_ok allow : buffer_ok (sample_state allow).
Proof. reflexivity. Defined.

Lemma sample_touch_frame_well_formed : well_formed sample_touch_frame.
Proof. split; [simpl; lia | reflexivity]. Defined.

Lemma sample_callback_frame_well_formed : well_formed sample_callback_frame.
Proof. split; [simpl; lia | reflexivity]. Defined.

(** C1 as it is stated fails with [allowTouchInterrupts] set: the frame is
    taken in, and the slot is left with the event type [handleEvent] gives
    it, [EVENT_TAG_NO_EVENT], not with the tag of the frame. *)
Lemma round_trip_with_touch_interrupts :
  receiver_reset (sample_state true)
  /\ buffer_ok (sample_state true)
  /\ well_formed sample_touch_frame
  /\ exists s', receive (sample_state true) (wire sample_touch_frame) = Some s'
       /\ EventType (deref s' (destination (frame_tag sample_touch_frame))) = 0xFF
       /\ EventType (deref s' (destination (frame_tag sample_touch_frame)))
          <> frame_tag sample_touch_frame.
Proof.
  split; [apply sample_state_reset |]. split; [apply sample_state_buffer_ok |].
  split; [apply sample_touch_frame_well_formed |].
  eexists. split; [vm_compute; reflexivity |]. split; [reflexivity | discriminate].
Qed.

Lemma framing_round_trip_witness :
  (receiver_reset (sample_state false) /\ buffer_ok (sample_state false)
   /\ well_formed sample_touch_frame)
  /\ exists s', receive (sample_state false) (wire sample_touch_frame) = Some s'
       /\ (allowTouchInterrupts (sample_state false) = false ->
           EventType (deref s' (destination (frame_tag sample_touch_frame)))
           = frame_tag sample_touch_frame
           /\ take (length (frame_payload sample_touch_frame))
                (ByteArray (deref s' (destination (frame_tag sample_touch_frame))))
              = frame_payload sample_touch_frame)
       /\ (allowTouchInterrupts (sample_state false) = true ->
           exists e, EventType e = frame_tag sample_touch_frame
             /\ take (length (frame_payload sample_touch_frame)) (ByteArray e)
                = frame_payload sample_touch_frame
             /\ deref s' (destination (frame_tag sample_touch_frame)) = handleEvent e).
Proof.
  split.
  - split; [apply sample_state_reset |].
    split; [apply sample_state_buffer_ok | apply sample_touch_frame_well_formed].
  - apply (framing_round_trip sample_callback_size (sample_state false) sample_touch_frame).
    + apply sample_state_reset.
    + apply sample_state_buffer_ok.
    + apply sample_touch_frame_well_formed.
Defined.

Lemma trailing_sync_mismatch_witness :
  (sReceiveBufferOutOfSync sample_state_full = false
   /\ sReceivedEventType sample_state_full <> EVENT_TAG_NO_EVENT
   /\ sReceiveBufferIndex sample_state_full = tDataSize (sReceivedEventType sample_state_full)
   /\ 0 <> SYNC_TOKEN)
  /\ (exists s', ISR sample_state_full 0 = Some s'
        /\ sReceiveBufferOutOfSync s' = true
        /\ sReceiveBufferIndex s' = 0
        /\ remoteTouchEvent s' = remoteTouchEvent sample_state_full
        /\ remoteTouchDownEvent s' = remoteTouchDownEvent sample_state_full)
  /\ (exists s',
        receive sample_state_down
          (frame_length sample_touch_frame :: frame_tag sample_touch_frame
           :: frame_payload sample_touch_frame ++ [0]) = Some s'
        /\ sReceiveBufferOutOfSync s' = true
        /\ sReceiveBufferIndex s' = 0
        /\ remoteTouchEvent s' = remoteTouchEvent sample_state_down
        /\ remoteTouchDownEvent s' = remoteTouchDownEvent sample_state_down).
Proof.
  assert (Hsync : 0 <> SYNC_TOKEN) by (simpl; lia).
  assert (Hty : sReceivedEventType sample_state_full <> EVENT_TAG_NO_EVENT) by (simpl; lia).
  split; [repeat split; assumption |]. split.
  - apply (proj1 (trailing_sync_mismatch sample_callback_size) sample_state_full 0);
      [reflexivity | exact Hty | reflexivity | exact Hsync].
  - apply (proj2 (trailing_sync_mismatch sample_callback_size) sample_state_down
             sample_touch_frame 0);
      [repeat split | reflexivity | apply sample_touch_frame_well_formed | exact Hsync].
Defined.

Lemma resync_convergence_witness :
  (sReceiveBufferOutOfSync sample_state_out_of_sync = true
   /\ buffer_ok sample_state_out_of_sync
   /\ Forall (fun b => b <> SYNC_TOKEN) [1; 2; 3]
   /\ Forall well_formed [sample_touch_frame; sample_callback_frame])
  /\ (forall b, b <> SYNC_TOKEN -> ISR sample_state_out_of_sync b = Some sample_state_out_of_sync)
  /\ receive sample_state_out_of_sync [1; 2; 3] = Some sample_state_out_of_sync
  /\ ISR sample_state_out_of_sync SYNC_TOKEN
     = Some (set_receiver (sReceiveBuffer sample_state_out_of_sync) 0 false
               EVENT_TAG_NO_EVENT sample_state_out_of_sync)
  /\ receive sample_state_out_of_sync ([1; 2; 3] ++ [SYNC_TOKEN])
     = Some (set_receiver (sReceiveBuffer sample_state_out_of_sync) 0 false
               EVENT_TAG_NO_EVENT sample_state_out_of_sync)
  /\ receive sample_state_out_of_sync
       ([1; 2; 3] ++ [SYNC_TOKEN]
        ++ concat (map wire [sample_touch_frame; sample_callback_frame]))
     = Some (fold_left deliver [sample_touch_frame; sample_callback_frame]
               (set_receiver (sReceiveBuffer sample_state_out_of_sync) 0 false
                  EVENT_TAG_NO_EVENT sample_state_out_of_sync)).
Proof.
  assert (Hg : Forall (fun b => b <> SYNC_TOKEN) [1; 2; 3])
    by (repeat constructor; simpl; lia).
  assert (Hf : Forall well_formed [sample_touch_frame; sample_callback_frame]).
  { repeat constructor;
      [apply sample_touch_frame_well_formed | apply sample_callback_frame_well_formed]. }
  split; [repeat split; assumption |].
  apply (resync_convergence sample_callback_size sample_state_out_of_sync [1; 2; 3]
           [sample_touch_frame; sample_callback_frame]);
    [reflexivity | reflexivity | exact Hg | exact Hf].
Defined.

Lemma down_event_protection_witness :
  (receiver_reset sample_state_down /\ buffer_ok sample_state_down
   /\ well_formed sample_touch_frame
   /\ EventType (remoteTouchDownEvent sample_state_down) = EVENT_TAG_TOUCH_ACTION_DOWN
   /\ frame_tag sample_touch_frame <> EVENT_TAG_TOUCH_ACTION_DOWN)
  /\ exists s', receive sample_state_down (wire sample_touch_frame) = Some s'
       /\ remoteTouchDownEvent s' = remoteTouchDownEvent sample_state_down
       /\ remoteTouchEvent s'
          = (if allowTouchInterrupts sample_state_down
             then handleEvent (event_of sample_touch_frame (remoteTouchEvent sample_state_down))
             else event_of sample_touch_frame (remoteTouchEvent sample_state_down)).
Proof.
  assert (Hreset : receiver_reset sample_state_down) by (repeat split).
  assert (Hbuf : buffer_ok sample_state_down) by reflexivity.
  assert (Htag : frame_tag sample_touch_frame <> EVENT_TAG_TOUCH_ACTION_DOWN) by (simpl; lia).
  split.
  - split; [exact Hreset |]. split; [exact Hbuf |].
    split; [apply sample_touch_frame_well_formed |]. split; [reflexivity | exact Htag].
  - apply (down_event_protection sample_callback_size sample_state_down sample_touch_frame
             Hreset Hbuf sample_touch_frame_well_formed Htag).
Defined.

(** C6 as it is stated fails for the tag [EVENT_TAG_NO_EVENT]: it is not below
    [EVENT_TAG_FIRST_CALLBACK_ACTION_CODE], yet the bytes behind it are not
    collected as a payload of the callback size; the routine takes them for
    the next length byte and the next tag. *)
Lemma no_event_tag_restarts_header :
  receiver_reset (sample_state false)
  /\ buffer_ok (sample_state false)
  /\ (EVENT_TAG_NO_EVENT <? EVENT_TAG_FIRST_CALLBACK_ACTION_CODE) = false
  /\ Z.of_nat (length [1; 2]) <= tDataSize EVENT_TAG_NO_EVENT
  /\ receive (sample_state false) [6; EVENT_TAG_NO_EVENT; 1; 2]
     = Some (set_receiver [1; 0; 0; 0; 0; 0; 0; 0; 0; 0; 0; 0] 0 false 2 (sample_state false))
  /\ receive (sample_state false) (6 :: EVENT_TAG_NO_EVENT :: [1; 2])
     <> Some (set_receiver
                ([1; 2] ++ drop (length [1; 2])
                                (<[0%nat := 6]> (sReceiveBuffer (sample_state false))))
                (Z.of_nat (length [1; 2])) false EVENT_TAG_NO_EVENT (sample_state false)).
Proof.
  split; [apply sample_state_reset |]. split; [apply sample_state_buffer_ok |].
  split; [reflexivity |]. split; [vm_compute; discriminate |].
  split; [vm_compute; reflexivity | vm_compute; discriminate].
Qed.

Lemma header_decoding_witness :
  (receiver_reset (sample_state false) /\ buffer_ok (sample_state false)
   /\ 1 <> EVENT_TAG_NO_EVENT)
  /\ ISR (sample_state false) 6
     = Some (set_receiver (<[0%nat := 6]> (sReceiveBuffer (sample_state false))) 1 false
               EVENT_TAG_NO_EVENT (sample_state false))
  /\ receive (sample_state false) [6; 1]
     = Some (set_receiver (<[0%nat := 6]> (sReceiveBuffer (sample_state false))) 0 false 1
               (sample_state false))
  /\ (forall len' b rest,
        receive (sample_state false) (6 :: 1 :: b :: rest)
        = receive (sample_state false) (len' :: 1 :: b :: rest))
  /\ tDataSize 1 = 4
  /\ receive (sample_state false) (6 :: 1 :: [10; 20; 30])
     = Some (set_receiver [10; 20; 30; 0; 0; 0; 0; 0; 0; 0; 0; 0] 3 false 1
               (sample_state false))
  /\ receive (sample_state false) (6 :: 1 :: [10; 20; 30; 40] ++ [0])
     = Some (set_receiver [10; 20; 30; 40; 0; 0; 0; 0; 0; 0; 0; 0] 0 true 1
               (sample_state false)).
Proof.
  assert (Htag : 1 <> EVENT_TAG_NO_EVENT) by (simpl; lia).
  split; [split; [apply sample_state_reset | split; [apply sample_state_buffer_ok | exact Htag]] |].
  destruct (header_decoding sample_callback_size (sample_state false) 6 1
              (sample_state_reset false) (sample_state_buffer_ok false))
    as (Hlen & Hhdr & Hindep & Hsize).
  destruct (Hsize Htag) as (Hsel & Hcollect & Hcheck).
  split; [exact Hlen |]. split; [exact Hhdr |]. split; [exact Hindep |].
  split; [exact Hsel |]. split.
  - apply (Hcollect [10; 20; 30]). vm_compute. discriminate.
  - apply (Hcheck [10; 20; 30; 40] 0). reflexivity.
Defined.

Lemma receive_buffer_index_bound_witness :
  reachable (sample_state false)
  /\ 0 <= sReceiveBufferIndex (sample_state false)
       <= tDataSize (sReceivedEventType (sample_state false))
  /\ tDataSize (sReceivedEventType (sample_state false)) <= RECEIVE_CALLBACK_DATA_SIZE
  /\ (exists s', ISR (sample_state false) 6 = Some s')
  /\ (exists s', receive (sample_state false) [6; 0x20; 1; 2; 3; 0xA5; 7] = Some s'
        /\ reachable s'
        /\ 0 <= sReceiveBufferIndex s' <= tDataSize (sReceivedEventType s')).
Proof.
  assert (Hs : reachable (sample_state false)).
  { apply reach_start; [apply sample_state_reset | apply sample_state_buffer_ok]. }
  split; [exact Hs |].
  destruct (receive_buffer_index_bound sample_callback_size (sample_state false) Hs)
    as (Hidx & Hsize & _ & Hstep & Hrun).
  split; [exact Hidx |]. split; [exact Hsize |].
  split; [exact (proj1 (Hstep 6)) | exact (Hrun [6; 0x20; 1; 2; 3; 0xA5; 7])].
Defined.

Lemma argument_cap_witness :
  13 > 12
  /\ sendUSARTArgs sample_stack 0x10 13 [1; 2; 3; 4; 5; 6; 7; 8; 9; 10; 11; 12; 13] = []
  /\ sendUSARTArgsAndByteBuffer sample_stack sample_ram 0x10 13
       [1; 2; 3; 4; 5; 6; 7; 8; 9; 10; 11; 12; 13] = [].
Proof.
  assert (H13 : 13 > 12) by lia.
  split; [exact H13 |].
  apply (argument_cap (hdr := sample_headers) sample_stack sample_ram 0x10 13
           [1; 2; 3; 4; 5; 6; 7; 8; 9; 10; 11; 12; 13] H13).
Defined.

Lemma sample_args_uint16 : Forall is_uint16 [1; 258; 65535].
Proof. repeat constructor; unfold is_uint16; lia. Defined.

Lemma sample_tag_uint8 : is_uint8 0x10.
Proof. unfold is_uint8. lia. Defined.

Lemma command_frame_layout_witness :
  (is_uint8 0x10 /\ 0 <= 3 <= 12 /\ Z.of_nat (length [1; 258; 65535]) = 3
   /\ Forall is_uint16 [1; 258; 65535])
  /\ sendUSARTArgs sample_stack 0x10 3 [1; 258; 65535]
     = words_le (Z.lor (Z.shiftl 0x10 8) SYNC_TOKEN :: 2 * 3 :: [1; 258; 65535])
  /\ Z.of_nat (length (sendUSARTArgs sample_stack 0x10 3 [1; 258; 65535])) = 2 * 3 + 4.
Proof.
  assert (HN : 0 <= 3 <= 12) by lia.
  split; [split; [apply sample_tag_uint8 | split; [exact HN | split; [reflexivity | apply sample_args_uint16]]] |].
  apply (command_frame_layout sample_sync_token_byte sample_stack 0x10 3 [1; 258; 65535]
           sample_tag_uint8 HN eq_refl sample_args_uint16).
Defined.

(** C8 as it is stated fails from the length 32768 on: the length word is
    transmitted as passed, the length handed to
    [sendUSARTBufferNoSizeCheck] is an [int16_t] and negative, and no data
    byte follows. *)
Lemma data_block_not_sent_from_32768 :
  0 <= 0 <= 12
  /\ sendUSARTArgsAndByteBuffer sample_stack sample_ram 0x10 0 [40000; 1000]
     = words_le [Z.lor (Z.shiftl 0x10 8) SYNC_TOKEN; 2 * 0]
       ++ words_le [Z.lor (Z.shiftl DATAFIELD_TAG_BYTE 8) SYNC_TOKEN; 40000]
  /\ Z.of_nat (length (sendUSARTArgsAndByteBuffer sample_stack sample_ram 0x10 0
                         [40000; 1000])) = 2 * 0 + 8
  /\ Z.of_nat (length (sendUSARTArgsAndByteBuffer sample_stack sample_ram 0x10 0
                         [40000; 1000])) <> 2 * 0 + 8 + 40000.
Proof.
  split; [lia |]. split; [vm_compute; reflexivity |].
  split; [vm_compute; reflexivity | vm_compute; discriminate].
Qed.

Lemma data_block_layout_witness :
  (is_uint8 0x10 /\ 0 <= 2 <= 12 /\ Z.of_nat (length [1; 258]) = 2
   /\ Forall is_uint16 [1; 258] /\ 0 <= 3 <= 32767 /\ is_uint16 1000)
  /\ sendUSARTArgsAndByteBuffer sample_stack sample_ram 0x10 2 ([1; 258] ++ [3; 1000])
     = sendUSARTArgs sample_stack 0x10 2 [1; 258]
       ++ words_le [Z.lor (Z.shiftl DATAFIELD_TAG_BYTE 8) SYNC_TOKEN; 3]
       ++ bytes_at sample_ram 1000 3
  /\ sendUSARTArgs sample_stack 0x10 2 [1; 258]
     = words_le (Z.lor (Z.shiftl 0x10 8) SYNC_TOKEN :: 2 * 2 :: [1; 258])
  /\ Z.of_nat (length (sendUSARTArgsAndByteBuffer sample_stack sample_ram 0x10 2
                         ([1; 258] ++ [3; 1000]))) = 2 * 2 + 8 + 3.
Proof.
  assert (HN : 0 <= 2 <= 12) by lia.
  assert (Hargs : Forall is_uint16 [1; 258]) by (repeat constructor; unfold is_uint16; lia).
  assert (Hlen : 0 <= 3 <= 32767) by lia.
  assert (Hptr : is_uint16 1000) by (unfold is_uint16; lia).
  split.
  - split; [apply sample_tag_uint8 |]. split; [exact HN |]. split; [reflexivity |].
    split; [exact Hargs |]. split; [exact Hlen | exact Hptr].
  - apply (data_block_layout sample_sync_token_byte sample_stack sample_ram 0x10 2 [1; 258]
             3 1000 sample_tag_uint8 HN eq_refl Hargs Hlen Hptr).
Defined.

(** C10 as it is stated fails at the most negative count: [2 * (-32768)]
    wraps around to 0 in the 16 bit [int], the send length is 4, and the
    header word and the length word are transmitted. *)
Lemma most_negative_count_transmits :
  -32768 <= -2
  /\ sendUSARTArgs sample_stack 0x10 (-32768) [] = [SYNC_TOKEN; 0x10; 0; 0]
  /\ sendUSARTArgs sample_stack 0x10 (-32768) [] <> [].
Proof.
  split; [lia |]. split; [vm_compute; reflexivity | vm_compute; discriminate].
Qed.

Lemma negative_argument_count_witness :
  (is_uint8 0x10 /\ -1 <= 12 /\ -16384 <= -2 <= -2)
  /\ length (sendUSARTArgs sample_stack 0x10 (-1) [])
     = Z.to_nat (int16 (int16 (-1 * 2) + 4))
  /\ sendUSARTArgs sample_stack 0x10 (-1) [] = [SYNC_TOKEN; 0x10]
  /\ sendUSARTArgs sample_stack 0x10 (-2) [] = [].
Proof.
  assert (H1 : -1 <= 12) by lia.
  assert (H2 : -16384 <= -2 <= -2) by lia.
  split; [split; [apply sample_tag_uint8 | split; [exact H1 | exact H2]] |].
  split; [| split].
  - apply (proj1 (negative_argument_count sample_sync_token_byte sample_stack 0x10 (-1) []
                    sample_tag_uint8) H1).
  - apply (proj1 (proj2 (negative_argument_count sample_sync_token_byte sample_stack 0x10
                           (-1) [] sample_tag_uint8)) eq_refl).
  - apply (proj2 (proj2 (negative_argument_count sample_sync_token_byte sample_stack 0x10
                           (-2) [] sample_tag_uint8)) H2).
Defined.

(** ** The further statements at sample inputs *)

#[local] Existing Instance sample_avr.

Lemma sample_five_uint16 : Forall is_uint16 [1; 2; 3; 4; 5].
Proof. repeat constructor; unfold is_uint16; lia. Defined.

Lemma sendUSART5Args_as_sendUSARTArgs_witness :
  (is_uint8 0x10 /\ Forall is_uint16 [1; 2; 3; 4; 5])
  /\ sendUSART5Args sample_stack 0x10 1 2 3 4 5
     = sendUSARTArgs sample_ram 0x10 5 [1; 2; 3; 4; 5]
  /\ sendUSART5Args sample_stack 0x10 1 2 3 4 5
     = words_le [Z.lor (Z.shiftl 0x10 8) SYNC_TOKEN; 10; 1; 2; 3; 4; 5].
Proof.
  split; [split; [apply sample_tag_uint8 | apply sample_five_uint16] |].
  apply (sendUSART5Args_as_sendUSARTArgs sample_sync_token_byte sample_stack sample_ram
           0x10 1 2 3 4 5 sample_tag_uint8 sample_five_uint16).
Defined.

Lemma sendUSART5ArgsAndByteBuffer_as_variadic_witness :
  (is_uint8 0x10 /\ Forall is_uint16 [1; 2; 3; 4; 5] /\ is_uint16 1000 /\ is_uint16 40000)
  /\ sendUSART5ArgsAndByteBuffer sample_stack sample_ram 0x10 1 2 3 4 5 1000 40000
     = sendUSARTArgsAndByteBuffer sample_ram sample_ram 0x10 5
         ([1; 2; 3; 4; 5] ++ [40000; 1000])
  /\ sendUSART5ArgsAndByteBuffer sample_stack sample_ram 0x10 1 2 3 4 5 1000 40000
     = words_le [Z.lor (Z.shiftl 0x10 8) SYNC_TOKEN; 10; 1; 2; 3; 4; 5;
                 Z.lor (Z.shiftl DATAFIELD_TAG_BYTE 8) SYNC_TOKEN; 40000]
       ++ bytes_at sample_ram 1000 (int16 40000)
  /\ (32768 <= 40000 ->
      length (sendUSART5ArgsAndByteBuffer sample_stack sample_ram 0x10 1 2 3 4 5 1000 40000)
      = 18%nat).
Proof.
  assert (Hptr : is_uint16 1000) by (unfold is_uint16; lia).
  assert (Hlen : is_uint16 40000) by (unfold is_uint16; lia).
  split; [split; [apply sample_tag_uint8 | split; [apply sample_five_uint16 | split; assumption]] |].
  apply (sendUSART5ArgsAndByteBuffer_as_variadic sample_sync_token_byte sample_stack
           sample_ram sample_ram 0x10 1 2 3 4 5 1000 40000
           sample_tag_uint8 sample_five_uint16 Hptr Hlen).
Defined.

Lemma sendUSARTArgs_injective_witness :
  sendUSARTArgs sample_stack 0x10 3 [1; 258; 65535]
  = sendUSARTArgs sample_ram 0x10 3 [1; 258; 65535]
  /\ (0x10 = 0x10 /\ 3 = 3 /\ [1; 258; 65535] = [1; 258; 65535]).
Proof.
  assert (HN : 0 <= 3 <= 12) by lia.
  assert (Heq : sendUSARTArgs sample_stack 0x10 3 [1; 258; 65535]
                = sendUSARTArgs sample_ram 0x10 3 [1; 258; 65535]) by reflexivity.
  split; [exact Heq |].
  apply (sendUSARTArgs_injective sample_sync_token_byte sample_stack sample_ram 0x10 0x10
           3 3 [1; 258; 65535] [1; 258; 65535] sample_tag_uint8 sample_tag_uint8 HN HN
           eq_refl eq_refl sample_args_uint16 sample_args_uint16 Heq).
Defined.

Lemma ISR_slots_only_on_completion_witness :
  ISR sample_state_full SYNC_TOKEN
  = Some (deliver (sample_state false) sample_touch_frame)
  /\ allowTouchInterrupts (deliver (sample_state false) sample_touch_frame)
     = allowTouchInterrupts sample_state_full
  /\ (remoteTouchEvent (deliver (sample_state false) sample_touch_frame)
      <> remoteTouchEvent sample_state_full
      \/ remoteTouchDownEvent (deliver (sample_state false) sample_touch_frame)
         <> remoteTouchDownEvent sample_state_full ->
      sReceiveBufferOutOfSync sample_state_full = false
      /\ sReceivedEventType sample_state_full <> EVENT_TAG_NO_EVENT
      /\ sReceiveBufferIndex sample_state_full
         = tDataSize (sReceivedEventType sample_state_full)
      /\ SYNC_TOKEN = SYNC_TOKEN).
Proof.
  assert (Hstep : ISR sample_state_full SYNC_TOKEN
                  = Some (deliver (sample_state false) sample_touch_frame)) by reflexivity.
  split; [exact Hstep |].
  apply (ISR_slots_only_on_completion sample_state_full SYNC_TOKEN
           (deliver (sample_state false) sample_touch_frame) Hstep).
Defined.

Lemma second_frame_overwrites_first_witness :
  (receiver_reset (sample_state false) /\ buffer_ok (sample_state false)
   /\ well_formed sample_callback_frame /\ well_formed sample_touch_frame
   /\ destination (frame_tag sample_callback_frame) = destination (frame_tag sample_touch_frame)
   /\ allowTouchInterrupts (sample_state false) = false)
  /\ exists s',
       receive (sample_state false) (wire sample_callback_frame ++ wire sample_touch_frame)
       = Some s'
       /\ EventType (deref s' (destination (frame_tag sample_touch_frame)))
          = frame_tag sample_touch_frame
       /\ ByteArray (deref s' (destination (frame_tag sample_touch_frame)))
          = frame_payload sample_touch_frame
            ++ drop (length (frame_payload sample_touch_frame))
                 (frame_payload sample_callback_frame
                  ++ drop (length (frame_payload sample_callback_frame))
                       (ByteArray (deref (sample_state false)
                                     (destination (frame_tag sample_touch_frame))))).
Proof.
  split.
  - split; [apply sample_state_reset |]. split; [apply sample_state_buffer_ok |].
    split; [apply sample_callback_frame_well_formed |].
    split; [apply sample_touch_frame_well_formed |]. split; reflexivity.
  - apply (second_frame_overwrites_first sample_callback_size (sample_state false)
             sample_callback_frame sample_touch_frame
             (sample_state_reset false) (sample_state_buffer_ok false)
             sample_callback_frame_well_formed sample_touch_frame_well_formed
             eq_refl eq_refl).
Defined.

Lemma sample_no_sync : Forall (fun b => b <> SYNC_TOKEN) [1; 2; 3].
Proof. repeat constructor; simpl; lia. Defined.

Lemma sample_frames_well_formed :
  Forall well_formed [sample_touch_frame; sample_callback_frame].
Proof.
  repeat constructor;
    [apply sample_touch_frame_well_formed | apply sample_callback_frame_well_formed].
Defined.

Lemma glitch_costs_one_frame_witness :
  (receiver_reset (sample_state false) /\ buffer_ok (sample_state false)
   /\ well_formed sample_touch_frame /\ 0 <> SYNC_TOKEN)
  /\ receive (sample_state false)
       ((frame_length sample_touch_frame :: frame_tag sample_touch_frame
         :: frame_payload sample_touch_frame ++ [0])
        ++ [1; 2; 3] ++ [SYNC_TOKEN]
        ++ concat (map wire [sample_touch_frame; sample_callback_frame]))
     = Some (fold_left deliver [sample_touch_frame; sample_callback_frame]
               (set_receiver
                  (frame_payload sample_touch_frame
                   ++ drop (length (frame_payload sample_touch_frame))
                        (sReceiveBuffer (sample_state false)))
                  0 false EVENT_TAG_NO_EVENT (sample_state false))).
Proof.
  assert (Hb : 0 <> SYNC_TOKEN) by (simpl; lia).
  split.
  - split; [apply sample_state_reset |]. split; [apply sample_state_buffer_ok |].
    split; [apply sample_touch_frame_well_formed | exact Hb].
  - apply (glitch_costs_one_frame sample_callback_size (sample_state false)
             sample_touch_frame 0 [1; 2; 3] [sample_touch_frame; sample_callback_frame]
             (sample_state_reset false) (sample_state_buffer_ok false)
             sample_touch_frame_well_formed Hb sample_no_sync sample_frames_well_formed).
Defined.

Lemma sample_touch_down_frame_well_formed :
  well_formed {| frame_length := 6; frame_tag := 0x00; frame_payload := [10; 20; 30; 40] |}.
Proof. split; [simpl; lia | reflexivity]. Defined.

Lemma sample_queue_short :
  Z.of_nat (length (wire {| frame_length := 6; frame_tag := 0x00;
                            frame_payload := [10; 20; 30; 40] |} ++ [7; 8])) < 256.
Proof. simpl. lia. Defined.

Lemma serialEvent_takes_frame_witness :
  exists s',
    serialEvent (sample_state false)
      (wire {| frame_length := 6; frame_tag := 0x00; frame_payload := [10; 20; 30; 40] |}
       ++ [7; 8]) = Some (s', [7; 8])
    /\ remoteTouchEvent s'
       = handleEvent (event_of {| frame_length := 6; frame_tag := 0x00;
                                  frame_payload := [10; 20; 30; 40] |}
                        (remoteTouchEvent (sample_state false)))
    /\ remoteTouchDownEvent s' = remoteTouchDownEvent (sample_state false)
    /\ sReceiveBuffer s'
       = [10; 20; 30; 40] ++ drop 4 (sReceiveBuffer (sample_state false))
    /\ sReceiveBufferIndex s' = sReceiveBufferIndex (sample_state false)
    /\ sReceiveBufferOutOfSync s' = false
    /\ sReceivedEventType s' = EVENT_TAG_NO_EVENT.
Proof.
  apply (serialEvent_takes_frame sample_callback_size (sample_state false)
           {| frame_length := 6; frame_tag := 0x00; frame_payload := [10; 20; 30; 40] |}
           [7; 8] eq_refl eq_refl sample_touch_down_frame_well_formed sample_queue_short).
Defined.

Lemma sample_touch_wire_short : Z.of_nat (length (wire sample_touch_frame)) < 256.
Proof. simpl. lia. Defined.

Lemma serialEvent_agrees_with_ISR_witness :
  (receiver_reset (sample_state true) /\ buffer_ok (sample_state true)
   /\ well_formed sample_touch_frame /\ allowTouchInterrupts (sample_state true) = true
   /\ frame_tag sample_touch_frame <> EVENT_TAG_TOUCH_ACTION_DOWN)
  /\ exists s', serialEvent (sample_state true) (wire sample_touch_frame) = Some (s', [])
       /\ receive (sample_state true) (wire sample_touch_frame) = Some s'.
Proof.
  assert (Htag : frame_tag sample_touch_frame <> EVENT_TAG_TOUCH_ACTION_DOWN) by (simpl; lia).
  split.
  - split; [apply sample_state_reset |]. split; [apply sample_state_buffer_ok |].
    split; [apply sample_touch_frame_well_formed |]. split; [reflexivity | exact Htag].
  - apply (serialEvent_agrees_with_ISR sample_callback_size (sample_state true)
             sample_touch_frame (sample_state_reset true) (sample_state_buffer_ok true)
             sample_touch_frame_well_formed eq_refl Htag sample_touch_wire_short).
Defined.

Lemma serialEvent_in_pieces_witness :
  (frame_payload sample_touch_frame ++ [SYNC_TOKEN] = [10; 20] ++ [30; 40; SYNC_TOKEN]
   /\ Z.of_nat (length [10; 20]) <= tDataSize (frame_tag sample_touch_frame))
  /\ (forall serial, (length serial < 2)%nat ->
        serialEvent (sample_state false) serial = Some (sample_state false, serial))
  /\ serialEvent (sample_state false)
       (frame_length sample_touch_frame :: frame_tag sample_touch_frame :: [10; 20])
     = Some (header_read (sample_state false) (frame_length sample_touch_frame)
               (frame_tag sample_touch_frame), [10; 20])
  /\ serialEvent (header_read (sample_state false) (frame_length sample_touch_frame)
                    (frame_tag sample_touch_frame))
       ([10; 20] ++ [30; 40; SYNC_TOKEN] ++ [7])
     = serialEvent (sample_state false) (wire sample_touch_frame ++ [7])
  /\ exists s', serialEvent (sample_state false) (wire sample_touch_frame ++ [7])
                = Some (s', [7]).
Proof.
  assert (Hpart : Z.of_nat (length [10; 20]) <= tDataSize (frame_tag sample_touch_frame))
    by (vm_compute; discriminate).
  assert (Hlen : Z.of_nat (length (wire sample_touch_frame ++ [7])) < 256) by (simpl; lia).
  split; [split; [reflexivity | exact Hpart] |].
  apply (serialEvent_in_pieces sample_callback_size (sample_state false) sample_touch_frame
           [10; 20] [30; 40; SYNC_TOKEN] [7] eq_refl eq_refl
           sample_touch_frame_well_formed eq_refl Hpart Hlen).
Defined.

Lemma serialEvent_out_of_sync_witness :
  sReceiveBufferOutOfSync sample_state_out_of_sync = true
  /\ serialEvent sample_state_out_of_sync [1; 2; 3] = Some (sample_state_out_of_sync, [])
  /\ serialEvent sample_state_out_of_sync ([1; 2; 3] ++ SYNC_TOKEN :: wire sample_touch_frame)
     = serialEvent
         (set_receiver (sReceiveBuffer sample_state_out_of_sync)
            (sReceiveBufferIndex sample_state_out_of_sync) false EVENT_TAG_NO_EVENT
            sample_state_out_of_sync)
         (wire sample_touch_frame).
Proof.
  split; [reflexivity |].
  apply (serialEvent_out_of_sync sample_state_out_of_sync [1; 2; 3]
           (wire sample_touch_frame) eq_refl sample_no_sync).
Defined.

Lemma serialEvent_keeps_witness :
  serialEvent (sample_state false) (wire sample_touch_frame ++ [7])
  = Some (assign PtrRemoteTouchEvent
            (handleEvent (event_of sample_touch_frame (remoteTouchEvent (sample_state false))))
            (set_receiver [10; 20; 30; 40; 0; 0; 0; 0; 0; 0; 0; 0] 0 false EVENT_TAG_NO_EVENT
               (sample_state false)), [7])
  /\ remoteTouchDownEvent
       (assign PtrRemoteTouchEvent
          (handleEvent (event_of sample_touch_frame (remoteTouchEvent (sample_state false))))
          (set_receiver [10; 20; 30; 40; 0; 0; 0; 0; 0; 0; 0; 0] 0 false EVENT_TAG_NO_EVENT
             (sample_state false)))
     = remoteTouchDownEvent (sample_state false)
  /\ exists taken, wire sample_touch_frame ++ [7] = taken ++ [7].
Proof.
  assert (Hcall : serialEvent (sample_state false) (wire sample_touch_frame ++ [7])
                  = Some (assign PtrRemoteTouchEvent
                            (handleEvent (event_of sample_touch_frame
                                            (remoteTouchEvent (sample_state false))))
                            (set_receiver [10; 20; 30; 40; 0; 0; 0; 0; 0; 0; 0; 0] 0 false
                               EVENT_TAG_NO_EVENT (sample_state false)), [7]))
    by reflexivity.
  split; [exact Hcall |].
  destruct (serialEvent_keeps (sample_state false) (wire sample_touch_frame ++ [7]) _ _ Hcall)
    as (Hdown & _ & _ & Htaken).
  split; [exact Hdown | exact Htaken].
Defined.

Lemma serialEvent_drops_broken_frame_witness :
  (well_formed sample_touch_frame /\ 0 <> SYNC_TOKEN)
  /\ serialEvent (sample_state false)
       (frame_length sample_touch_frame :: frame_tag sample_touch_frame
        :: frame_payload sample_touch_frame ++ 0 :: [7])
     = Some (set_receiver
               (frame_payload sample_touch_frame
                ++ drop (length (frame_payload sample_touch_frame))
                     (sReceiveBuffer (sample_state false)))
               (sReceiveBufferIndex (sample_state false)) true
               (frame_tag sample_touch_frame) (sample_state false),
             [7]).
Proof.
  assert (Hb : 0 <> SYNC_TOKEN) by (simpl; lia).
  assert (Hlen : Z.of_nat (length (frame_length sample_touch_frame
                                   :: frame_tag sample_touch_frame
                                   :: frame_payload sample_touch_frame ++ 0 :: [7])) < 256)
    by (simpl; lia).
  split; [split; [apply sample_touch_frame_well_formed | exact Hb] |].
  apply (serialEvent_drops_broken_frame sample_callback_size (sample_state false)
           sample_touch_frame 0 [7] eq_refl eq_refl sample_touch_frame_well_formed Hb Hlen).
Defined.


Lemma adjustIntWithScaleFactor_back_witness :
  (1 < 4 /\ 4 <= 2147483647 /\ -2147483648 <= -7 * 4 <= 2147483647)
  /\ adjustIntWithScaleFactor (-7) 0 = -7
  /\ adjustIntWithScaleFactor (adjustIntWithScaleFactor (-7) (- 4)) 4 = -7
  /\ adjustIntWithScaleFactor (adjustIntWithScaleFactor (-7) 4) (- 4) = -7 - Z.rem (-7) 4.
Proof.
  assert (H1 : 1 < 4) by lia.
  assert (H2 : 4 <= 2147483647) by lia.
  assert (H3 : -2147483648 <= -7 * 4 <= 2147483647) by lia.
  split; [repeat split; lia |].
  apply (adjustIntWithScaleFactor_back (-7) 4 H1 H2 H3).
Defined.
